(** * kuberhealthy/http-check: configuration, dispatch, check loop and verdict

    A shallow embedding of [cmd/http-check/checkConfig.go] and
    [cmd/http-check/main.go].

    Conventions.
    - Go's [int] is the 64-bit two's complement integer of the platforms the
      check image is built for; it is a [Z] kept inside [int_min .. int_max]
      by [wrap64], which is written at every arithmetic operation of the
      source.
    - The process environment is a finite map from names to values;
      [os.Getenv] returns the empty string for a name that is not set.
    - Calls that leave the program (HTTP client, ticker, logger) are recorded
      as events of a trace; the replies of the network are given by an
      oracle that sees the trace so far. One call of [http.Get] or of
      [http.DefaultClient.Do] is one event, whatever the client does inside.
    - A panic of the standard library is an outcome of the call, next to a
      normal return. *)

From Stdlib Require Import ZArith String Ascii List Lia Bool.
From Stdlib Require Import Floats.SpecFloat.
From stdpp Require Import gmap strings.
Import ListNotations.

Local Open Scope string_scope.
Local Open Scope list_scope.
Local Open Scope Z_scope.

(* ===================================================================== *)
(** ** Machine integers *)
(* ===================================================================== *)

Module GoInt.

Definition int_min : Z := - 2 ^ 63.
Definition int_max : Z := 2 ^ 63 - 1.

(** Two's complement wrap-around of a 64-bit signed integer. *)
Definition wrap64 (z : Z) : Z := (z + 2 ^ 63) mod 2 ^ 64 - 2 ^ 63.

Definition in_int (z : Z) : Prop := int_min <= z <= int_max.

Definition in_intb (z : Z) : bool := (int_min <=? z) && (z <=? int_max).

Definition add (x y : Z) : Z := wrap64 (x + y).
Definition mul (x y : Z) : Z := wrap64 (x * y).

(** [x++] *)
Definition incr (x : Z) : Z := add x 1.

End GoInt.

(* ===================================================================== *)
(** ** strconv.Atoi *)
(* ===================================================================== *)

Module strconv.

Inductive NumError : Type :=
| ErrSyntax
| ErrRange.

(** The value of a decimal digit, [ch - '0'] with [ch <= '9']. *)
Definition digit (c : ascii) : option Z :=
  let n := Z.of_nat (nat_of_ascii c) in
  if (48 <=? n) && (n <=? 57) then Some (n - 48) else None.

(** The digit loop of [ParseUint(s, 10, 64)]: characters are consumed from
    the left; the first bad character is a syntax error, the first step
    that leaves 64 bits is a range error. *)
Fixpoint parse_digits (s : string) (n : Z) : Z + NumError :=
  match s with
  | EmptyString => inl n
  | String c rest =>
      match digit c with
      | None => inr ErrSyntax
      | Some d =>
          if 2 ^ 64 <=? n * 10 + d then inr ErrRange
          else parse_digits rest (n * 10 + d)
      end
  end.

Definition ParseUint (s : string) : Z + NumError :=
  match s with
  | EmptyString => inr ErrSyntax
  | _ => parse_digits s 0
  end.

(** [ParseInt(s, 10, 0)]: an optional sign, then [ParseUint], then the
    check against the range of [int]. *)
Definition ParseInt (s : string) : Z + NumError :=
  match s with
  | EmptyString => inr ErrSyntax
  | String c rest =>
      let neg := Ascii.eqb c "-" in
      let body := if Ascii.eqb c "+" || neg then rest else s in
      match ParseUint body with
      | inr e => inr e
      | inl un =>
          if negb neg && (2 ^ 63 <=? un) then inr ErrRange
          else if neg && (2 ^ 63 <? un) then inr ErrRange
          else inl (if neg then - un else un)
      end
  end.

(** [Atoi] is [ParseInt(s, 10, 0)]; its fast path for short strings
    computes the same value. *)
Definition Atoi (s : string) : Z + NumError := ParseInt s.

End strconv.

(* ===================================================================== *)
(** ** checkConfig.go *)
(* ===================================================================== *)

Definition defaultCount : Z := 0.
Definition defaultSeconds : Z := 0.
Definition defaultPassingPercent : Z := 100.
Definition defaultRequestType : string := "GET".
Definition defaultRequestBody : string := "{}".
Definition defaultExpectedStatusCode : Z := 200.

Record CheckConfig : Type := mkCheckConfig {
  CheckURL : string;
  Count : Z;
  Seconds : Z;
  PassingPercent : Z;
  RequestType : string;
  RequestBody : string;
  ExpectedStatusCode : Z
}.

Definition set_CheckURL (v : string) (c : CheckConfig) : CheckConfig :=
  mkCheckConfig v (Count c) (Seconds c) (PassingPercent c)
    (RequestType c) (RequestBody c) (ExpectedStatusCode c).
Definition set_Count (v : Z) (c : CheckConfig) : CheckConfig :=
  mkCheckConfig (CheckURL c) v (Seconds c) (PassingPercent c)
    (RequestType c) (RequestBody c) (ExpectedStatusCode c).
Definition set_Seconds (v : Z) (c : CheckConfig) : CheckConfig :=
  mkCheckConfig (CheckURL c) (Count c) v (PassingPercent c)
    (RequestType c) (RequestBody c) (ExpectedStatusCode c).
Definition set_PassingPercent (v : Z) (c : CheckConfig) : CheckConfig :=
  mkCheckConfig (CheckURL c) (Count c) (Seconds c) v
    (RequestType c) (RequestBody c) (ExpectedStatusCode c).
Definition set_RequestType (v : string) (c : CheckConfig) : CheckConfig :=
  mkCheckConfig (CheckURL c) (Count c) (Seconds c) (PassingPercent c)
    v (RequestBody c) (ExpectedStatusCode c).
Definition set_RequestBody (v : string) (c : CheckConfig) : CheckConfig :=
  mkCheckConfig (CheckURL c) (Count c) (Seconds c) (PassingPercent c)
    (RequestType c) v (ExpectedStatusCode c).
Definition set_ExpectedStatusCode (v : Z) (c : CheckConfig) : CheckConfig :=
  mkCheckConfig (CheckURL c) (Count c) (Seconds c) (PassingPercent c)
    (RequestType c) (RequestBody c) v.

(** The errors [parseConfig] builds with [fmt.Errorf]. *)
Inductive ConfigError : Type :=
| ErrEmptyURL
| ErrUnsupportedProtocol
| ErrConvert (variable : string) (cause : strconv.NumError).

Definition ConfigError_message (e : ConfigError) : string :=
  match e with
  | ErrEmptyURL =>
      "empty CHECK_URL specified. Please update your CHECK_URL environment variable"
  | ErrUnsupportedProtocol =>
      "given URL does not declare a supported protocol. (http | https)"
  | ErrConvert v _ => ("error converting " ++ v ++ " to int")%string
  end.

(** The process environment. *)
Abbreviation Env := (gmap string string).

(** [os.Getenv]: the value of the variable, empty when it is not set. *)
Definition Getenv (env : Env) (key : string) : string :=
  default "" (env !! key).

(** A small error monad for the early returns of [parseConfig]. *)
Definition bindE {E A B : Type} (m : A + E) (k : A -> B + E) : B + E :=
  match m with
  | inl a => k a
  | inr e => inr e
  end.

Notation "'let?' x := m 'in' k" := (bindE m (fun x => k))
  (at level 10, x name, m at level 100, k at level 200).

(** One [strconv.Atoi] block of [parseConfig]: the variable is converted
    only when its value is not empty. *)
Definition parse_int_var (env : Env) (name : string)
    (set : Z -> CheckConfig -> CheckConfig) (cfg : CheckConfig)
  : CheckConfig + ConfigError :=
  let value := Getenv env name in
  if negb (Nat.eqb (String.length value) 0) then
    match strconv.Atoi value with
    | inr err => inr (ErrConvert name err)
    | inl v => inl (set v cfg)
    end
  else inl cfg.

(** One string block of [parseConfig]. *)
Definition parse_string_var (env : Env) (name : string)
    (set : string -> CheckConfig -> CheckConfig) (cfg : CheckConfig)
  : CheckConfig :=
  let value := Getenv env name in
  if negb (Nat.eqb (String.length value) 0) then set value cfg else cfg.

Definition default_config : CheckConfig :=
  mkCheckConfig "" defaultCount defaultSeconds defaultPassingPercent
    defaultRequestType defaultRequestBody defaultExpectedStatusCode.

Definition parseConfig (env : Env) : CheckConfig + ConfigError :=
  (* Start with defaults. *)
  let cfg := default_config in
  (* Read the check URL. *)
  let checkURL := Getenv env "CHECK_URL" in
  if Nat.eqb (String.length checkURL) 0 then inr ErrEmptyURL
  else if negb (String.prefix "http" checkURL) then inr ErrUnsupportedProtocol
  else
    let cfg := set_CheckURL checkURL cfg in
    let? cfg := parse_int_var env "COUNT" set_Count cfg in
    let? cfg := parse_int_var env "SECONDS" set_Seconds cfg in
    let? cfg := parse_int_var env "PASSING_PERCENT" set_PassingPercent cfg in
    let cfg :=
      if PassingPercent cfg =? 0
      then set_PassingPercent defaultPassingPercent cfg else cfg in
    let cfg := parse_string_var env "REQUEST_TYPE" set_RequestType cfg in
    let cfg := parse_string_var env "REQUEST_BODY" set_RequestBody cfg in
    let? cfg := parse_int_var env "EXPECTED_STATUS_CODE" set_ExpectedStatusCode cfg in
    let cfg :=
      if ExpectedStatusCode cfg =? 0
      then set_ExpectedStatusCode defaultExpectedStatusCode cfg else cfg in
    inl cfg.

(* ===================================================================== *)
(** ** The outside world: URLs, HTTP, ticker, logger *)
(* ===================================================================== *)

(** [*url.URL], through the two methods the check calls on it. *)
Record URL : Type := mkURL {
  url_String : string;
  url_Redacted : string
}.

(** [*http.Request] as [http.NewRequest] fills it. *)
Record Request : Type := mkRequest {
  req_Method : string;
  req_URL : string;
  req_Body : string
}.

(** [*http.Response]: the loop reads the status code only. *)
Record Response : Type := mkResponse {
  StatusCode : Z
}.

(** The cause of a failed HTTP call, as reported by [net/http]. *)
Definition NetError : Type := string.

(** The two entry points of the HTTP client the check uses. *)
Inductive NetCall : Type :=
| HttpGet (url : string)
| ClientDo (req : Request).

Inductive LogLevel : Type := LevelInfo | LevelError.

Inductive LogArg : Type :=
| LStr (s : string)
| LInt (z : Z).

Inductive Event : Type :=
| EvNet (call : NetCall)
| EvTick
| EvLog (level : LogLevel) (args : list LogArg).

Definition Trace : Type := list Event.

Definition is_net (e : Event) : bool :=
  match e with EvNet _ => true | _ => false end.

Definition is_tick (e : Event) : bool :=
  match e with EvTick => true | _ => false end.

(** Programs that talk to the outside world extend the trace. *)
Definition IO (A : Type) : Type := Trace -> A * Trace.

Definition ret {A : Type} (a : A) : IO A := fun tr => (a, tr).

Definition bind {A B : Type} (m : IO A) (k : A -> IO B) : IO B :=
  fun tr => let (a, tr') := m tr in k a tr'.

Definition emit (e : Event) : IO unit := fun tr => (tt, tr ++ [e]).

Notation "'let!' x := m 'in' k" := (bind m (fun x => k))
  (at level 10, x name, m at level 100, k at level 200).
Notation "m ;;; k" := (bind m (fun _ => k))
  (at level 100, k at level 200, right associativity).

Definition log_Infoln (args : list LogArg) : IO unit :=
  emit (EvLog LevelInfo args).
Definition log_Errorln (args : list LogArg) : IO unit :=
  emit (EvLog LevelError args).

Module time.

(** [time.Second], in nanoseconds. *)
Definition Second : Z := 1000000000.

(** [*time.Ticker]: its period and whether its channel [C] is set. *)
Record Ticker : Type := mkTicker {
  period : Z;
  has_C : bool
}.

(** [time.NewTicker] panics on a non-positive duration ([None]). *)
Definition NewTicker (d : Z) : option Ticker :=
  if d <=? 0 then None else Some (mkTicker d true).

End time.

Module http.

Definition MethodGet : string := "GET".
Definition MethodPost : string := "POST".
Definition MethodPut : string := "PUT".
Definition MethodDelete : string := "DELETE".
Definition MethodPatch : string := "PATCH".

(** The characters of an HTTP token. *)
Definition is_token_char (c : ascii) : bool :=
  let n := nat_of_ascii c in
  ((48 <=? n) && (n <=? 57) || (65 <=? n) && (n <=? 90)
   || (97 <=? n) && (n <=? 122))%nat
  || existsb (Ascii.eqb c) (list_ascii_of_string "!#$%&'*+-.^_`|~").

Definition validMethod (method : string) : bool :=
  negb (Nat.eqb (String.length method) 0)
  && forallb is_token_char (list_ascii_of_string method).

End http.

Section World.

(** The network: the reply to a call, given everything that happened
    before it. *)
Variable net : Trace -> NetCall -> Response + NetError.

(** [url.Parse] of the standard library. *)
Variable url_Parse : string -> option URL.

Definition http_Get (url : string) : IO (Response + NetError) :=
  fun tr => (net tr (HttpGet url), tr ++ [EvNet (HttpGet url)]).

Definition http_DefaultClient_Do (req : Request) : IO (Response + NetError) :=
  fun tr => (net tr (ClientDo req), tr ++ [EvNet (ClientDo req)]).

(** [http.NewRequest]: no network access; it rejects a method that is not
    a token and a URL that does not parse. An empty method means GET. *)
Definition http_NewRequest (method url body : string) : Request + NetError :=
  let method := if Nat.eqb (String.length method) 0 then http.MethodGet else method in
  if negb (http.validMethod method) then inr "net/http: invalid method"
  else
    match url_Parse url with
    | None => inr "parse error"
    | Some _ => inl (mkRequest method url body)
    end.

(* =================================================================== *)
(** ** main.go: callAPI *)
(* =================================================================== *)

(** [Type_] is the field [Type] of the source. *)
Record APIRequest : Type := mkAPIRequest {
  URL_ : URL;
  Type_ : string;
  Body : string
}.

(** The two errors [callAPI] builds; both carry the redacted URL. *)
Inductive CallError : Type :=
| ErrCalling (redacted : string) (cause : NetError)
| ErrWrongRequestType (redacted : string).

Definition callAPI (request : APIRequest) : IO (Response + CallError) :=
  (* Handle GET requests. *)
  if String.eqb (Type_ request) http.MethodGet then
    let! r := http_Get (url_String (URL_ request)) in
    match r with
    | inr err => ret (inr (ErrCalling (url_Redacted (URL_ request)) err))
    | inl response => ret (inl response)
    end
  (* Handle other request types. *)
  else if String.eqb (Type_ request) http.MethodPost
       || String.eqb (Type_ request) http.MethodPut
       || String.eqb (Type_ request) http.MethodDelete
       || String.eqb (Type_ request) http.MethodPatch then
    match http_NewRequest (Type_ request) (url_String (URL_ request)) (Body request) with
    | inr err => ret (inr (ErrCalling (url_Redacted (URL_ request)) err))
    | inl req =>
        let! r := http_DefaultClient_Do req in
        match r with
        | inr err => ret (inr (ErrCalling (url_Redacted (URL_ request)) err))
        | inl response => ret (inl response)
        end
    end
  else ret (inr (ErrWrongRequestType (url_Redacted (URL_ request)))).

(* =================================================================== *)
(** ** main.go: runChecks *)
(* =================================================================== *)

Record checkSummary : Type := mkCheckSummary {
  ChecksRan : Z;
  ChecksPassed : Z;
  ChecksFailed : Z
}.

Definition incr_ChecksRan (s : checkSummary) : checkSummary :=
  mkCheckSummary (GoInt.incr (ChecksRan s)) (ChecksPassed s) (ChecksFailed s).
Definition incr_ChecksPassed (s : checkSummary) : checkSummary :=
  mkCheckSummary (ChecksRan s) (GoInt.incr (ChecksPassed s)) (ChecksFailed s).
Definition incr_ChecksFailed (s : checkSummary) : checkSummary :=
  mkCheckSummary (ChecksRan s) (ChecksPassed s) (GoInt.incr (ChecksFailed s)).

(** [waitForTicker]: the receive [<-ticker.C] is the event [EvTick]. *)
Definition waitForTicker (ticker : option time.Ticker) : IO unit :=
  match ticker with
  | None => ret tt
  | Some t => if negb (time.has_C t) then ret tt else emit EvTick
  end.

(** The body of the [for] loop of [runChecks]. *)
Definition loop_body (cfg : CheckConfig) (parsedURL : URL)
    (ticker : option time.Ticker) (summary : checkSummary) : IO checkSummary :=
  let! r := callAPI (mkAPIRequest parsedURL (RequestType cfg) (RequestBody cfg)) in
  let summary := incr_ChecksRan summary in
  match r with
  | inr err =>
      let summary := incr_ChecksFailed summary in
      log_Errorln [LStr "Failed to reach URL:"; LStr (url_Redacted parsedURL)] ;;;
      waitForTicker ticker ;;;
      ret summary
  | inl response =>
      if negb (StatusCode response =? ExpectedStatusCode cfg) then
        log_Errorln [LStr "Got a"; LInt (StatusCode response); LStr "with a";
                     LStr http.MethodGet; LStr "to"; LStr (url_Redacted parsedURL)] ;;;
        let summary := incr_ChecksFailed summary in
        waitForTicker ticker ;;;
        ret summary
      else
        log_Infoln [LStr "Got a"; LInt (StatusCode response); LStr "with a";
                    LStr http.MethodGet; LStr "to"; LStr (url_Redacted parsedURL)] ;;;
        let summary := incr_ChecksPassed summary in
        waitForTicker ticker ;;;
        ret summary
  end.

(** The [for] loop, bounded by [fuel] iterations; [None] when the fuel
    runs out before the loop condition fails. *)
Fixpoint loop (fuel : nat) (cfg : CheckConfig) (parsedURL : URL)
    (ticker : option time.Ticker) (summary : checkSummary)
  : IO (option checkSummary) :=
  if ChecksRan summary <? Count cfg then
    match fuel with
    | O => ret None
    | S fuel' =>
        let! summary' := loop_body cfg parsedURL ticker summary in
        loop fuel' cfg parsedURL ticker summary'
    end
  else ret (Some summary).

(** How a call ends. *)
Inductive Outcome (A : Type) : Type :=
| Returned (a : A)
| Panicked (reason : string)
| OutOfFuel.
Arguments Returned {A} a.
Arguments Panicked {A} reason.
Arguments OutOfFuel {A}.

(** The ticker of [runChecks]: a nil pointer unless a pause is
    configured. The duration is an [int64] product. The deferred
    [ticker.Stop()] has no effect the summary or the trace could show. *)
Definition start_ticker (cfg : CheckConfig) : Outcome (option time.Ticker) :=
  if 0 <? Seconds cfg then
    match time.NewTicker (GoInt.mul (Seconds cfg) time.Second) with
    | None => Panicked "non-positive interval for NewTicker"
    | Some t => Returned (Some t)
    end
  else Returned None.

Definition zero_summary : checkSummary := mkCheckSummary 0 0 0.

Definition runChecks_fuel (fuel : nat) (cfg : CheckConfig) (parsedURL : URL)
  : IO (Outcome (checkSummary * option CallError)) :=
  (* Initialize counters. *)
  log_Infoln [LStr "Beginning check."] ;;;
  let summary := zero_summary in
  (* Start a ticker if a pause is configured. *)
  match start_ticker cfg with
  | Panicked reason => ret (Panicked reason)
  | OutOfFuel => ret OutOfFuel
  | Returned ticker =>
      (* Perform the configured number of requests. *)
      let! r := loop fuel cfg parsedURL ticker summary in
      match r with
      | None => ret OutOfFuel
      | Some summary => ret (Returned (summary, None))
      end
  end.

(** [runChecks]: the loop runs at most [Count] times, see
    [runChecks_fuel_enough]. *)
Definition runChecks (cfg : CheckConfig) (parsedURL : URL)
  : IO (Outcome (checkSummary * option CallError)) :=
  runChecks_fuel (Z.to_nat (Count cfg)) cfg parsedURL.

End World.

Arguments Returned {A} a.
Arguments Panicked {A} reason.
Arguments OutOfFuel {A}.

(* ===================================================================== *)
(** ** main.go: the passing threshold and the verdict *)
(* ===================================================================== *)

(** IEEE 754 binary32, the [float32] of the source, on the executable
    specification of the Standard Library. *)
Module float32.

Definition prec : Z := 24.
Definition emax : Z := 128.

(** [float32(n)] for an integer [n]: rounded to nearest, ties to even. *)
Definition of_int (n : Z) : spec_float := binary_normalize prec emax n 0 false.

Definition div : spec_float -> spec_float -> spec_float := SFdiv prec emax.
Definition mul : spec_float -> spec_float -> spec_float := SFmul prec emax.




(** The integer part: the bits of the mantissa below the binary point
    are discarded, the sign is kept. *)
Definition truncate (f : spec_float) : option Z :=
  match f with
  | S754_zero _ => Some 0
  | S754_finite s m e =>
      Some (cond_Zopp s
              (match e with
               | Z0 => Zpos m
               | Zpos p => Z.shiftl (Zpos m) (Zpos p)
               | Zneg p => Z.shiftr (Zpos m) (Zpos p)
               end))
  | _ => None
  end.

(** [int(f)]: defined by the language when the integer part fits an
    [int]; otherwise the result depends on the platform ([None]). *)
Definition to_int (f : spec_float) : option Z :=
  match truncate f with
  | Some z => if GoInt.in_intb z then Some z else None
  | None => None
  end.

End float32.

(** Lines 59-60 of [main]: [passingScore]. *)
Definition passingScore (cfg : CheckConfig) : spec_float :=
  let passingPercentage :=
    float32.div (float32.of_int (PassingPercent cfg)) (float32.of_int 100) in
  float32.mul passingPercentage (float32.of_int (Count cfg)).

(** Line 61 of [main]: [passInt]. *)
Definition passInt (cfg : CheckConfig) : option Z :=
  float32.to_int (passingScore cfg).

(** The error [main] reports when too few checks passed; its fields are the
    arguments of the format string, in order. *)
Record VerdictError : Type := mkVerdictError {
  ve_expected : Z;
  ve_method : string;
  ve_redacted : string;
  ve_failed : Z;
  ve_ran : Z
}.

(** Lines 76-81 of [main]: ensure enough checks passed. *)
Definition verdict (cfg : CheckConfig) (parsedURL : URL) (passInt : Z)
    (summary : checkSummary) : option VerdictError :=
  if ChecksPassed summary <? passInt then
    Some (mkVerdictError (ExpectedStatusCode cfg) (RequestType cfg)
            (url_Redacted parsedURL) (ChecksFailed summary) (ChecksRan summary))
  else None.

Definition verdict_ok (cfg : CheckConfig) (parsedURL : URL) (passInt : Z)
    (summary : checkSummary) : bool :=
  match verdict cfg parsedURL passInt summary with
  | None => true
  | Some _ => false
  end.




(* ===================================================================== *)
(** ** Notions used by the statements *)
(* ===================================================================== *)

(** What a numeric block of [parseConfig] reads from the environment:
    nothing when the value is empty. *)
Definition read_int (env : Env) (name : string) : option Z + ConfigError :=
  let value := Getenv env name in
  if Nat.eqb (String.length value) 0 then inl None
  else
    match strconv.Atoi value with
    | inl z => inl (Some z)
    | inr err => inr (ErrConvert name err)
    end.

(** What a string block of [parseConfig] reads. *)
Definition read_string (env : Env) (name : string) : option string :=
  let value := Getenv env name in
  if Nat.eqb (String.length value) 0 then None else Some value.

(** Zero stands for the default. *)
Definition zero_to (dflt v : Z) : Z := if v =? 0 then dflt else v.

(** The variables [parseConfig] does not require. *)
Definition optional_variables : list string :=
  ["COUNT"; "SECONDS"; "PASSING_PERCENT"; "REQUEST_TYPE"; "REQUEST_BODY";
   "EXPECTED_STATUS_CODE"].

(** The integer fields of a configuration are Go [int]s. *)
Definition wf_config (cfg : CheckConfig) : Prop :=
  GoInt.in_int (Count cfg) /\ GoInt.in_int (Seconds cfg) /\
  GoInt.in_int (PassingPercent cfg) /\ GoInt.in_int (ExpectedStatusCode cfg).

(** The methods [callAPI] dispatches. *)
Definition body_methods : list string :=
  [http.MethodPost; http.MethodPut; http.MethodDelete; http.MethodPatch].

(** How [callAPI] wraps the reply of the HTTP client. *)
Definition wrap_reply {E : Type} (wrap : NetError -> E) (r : Response + NetError)
  : Response + E :=
  match r with
  | inl response => inl response
  | inr err => inr (wrap err)
  end.

Section Reachability.

Variable net : Trace -> NetCall -> Response + NetError.
Variable url_Parse : string -> option URL.

(** The states at the head of the [for] loop of [runChecks], with the
    trace so far, starting from a given state. *)
Inductive loop_reaches (cfg : CheckConfig) (parsedURL : URL)
    (ticker : option time.Ticker) (start : checkSummary * Trace)
  : checkSummary * Trace -> Prop :=
| reach_start : loop_reaches cfg parsedURL ticker start start
| reach_iter s tr :
    loop_reaches cfg parsedURL ticker start (s, tr) ->
    ChecksRan s < Count cfg ->
    loop_reaches cfg parsedURL ticker start
      (loop_body net url_Parse cfg parsedURL ticker s tr).

End Reachability.

(** The invariant of the loop. *)
Definition summary_inv (cfg : CheckConfig) (s : checkSummary) : Prop :=
  ChecksRan s = ChecksPassed s + ChecksFailed s /\
  0 <= ChecksPassed s /\ 0 <= ChecksFailed s /\
  ChecksRan s <= Count cfg.

(** One iteration counts one check, as passed or as failed. *)
Definition counts_one (s s' : checkSummary) : Prop :=
  ChecksRan s' = ChecksRan s + 1 /\
  (ChecksPassed s' = ChecksPassed s + 1 /\ ChecksFailed s' = ChecksFailed s \/
   ChecksPassed s' = ChecksPassed s /\ ChecksFailed s' = ChecksFailed s + 1).

(** The events of [n] paced iterations: each is at most one HTTP call and
    log lines, then one wait on the ticker. *)
Inductive paced : nat -> list Event -> Prop :=
| paced_nil : paced 0 []
| paced_iter n evs rest :
    Forall (fun e => is_tick e = false) evs ->
    (length (filter (fun e => is_net e = true) evs) <= 1)%nat ->
    paced n rest ->
    paced (S n) (evs ++ EvTick :: rest).

(** The first line [runChecks] logs. *)
Definition begin_event : Event := EvLog LevelInfo [LStr "Beginning check."].

(** A delay whose duration in nanoseconds leaves 63 bits and wraps to a
    negative [time.Duration]. *)
Definition overflowing_seconds : Z := 9223372037.

Definition no_net : Trace -> NetCall -> Response + NetError :=
  fun _ _ => inl (mkResponse 200).

Definition parse_any : string -> option URL :=
  fun s => Some (mkURL s s).

(** The summary after an iteration whose call to [callAPI] returned [r]. *)
Definition next_summary (cfg : CheckConfig) (r : Response + CallError)
    (s : checkSummary) : checkSummary :=
  match r with
  | inr _ => incr_ChecksFailed (incr_ChecksRan s)
  | inl response =>
      if StatusCode response =? ExpectedStatusCode cfg
      then incr_ChecksPassed (incr_ChecksRan s)
      else incr_ChecksFailed (incr_ChecksRan s)
  end.

(** The line an iteration logs. *)
Definition iteration_log (cfg : CheckConfig) (parsedURL : URL)
    (r : Response + CallError) : Event :=
  match r with
  | inr _ =>
      EvLog LevelError [LStr "Failed to reach URL:"; LStr (url_Redacted parsedURL)]
  | inl response =>
      EvLog (if StatusCode response =? ExpectedStatusCode cfg
             then LevelInfo else LevelError)
        [LStr "Got a"; LInt (StatusCode response); LStr "with a";
         LStr http.MethodGet; LStr "to"; LStr (url_Redacted parsedURL)]
  end.

(** Whether [waitForTicker] blocks on the ticker. *)
Definition armed (ticker : option time.Ticker) : bool :=
  match ticker with
  | Some t => time.has_C t
  | None => false
  end.

Definition count_ticks (evs : list Event) : nat :=
  length (filter (fun e => is_tick e = true) evs).

Definition count_net (evs : list Event) : nat :=
  length (filter (fun e => is_net e = true) evs).

(** The events of the iterations that remain from a loop-head state: with
    an armed ticker each iteration ends on a wait, without one nothing
    waits. *)
Definition run_events (cfg : CheckConfig) (ticker : option time.Ticker)
    (s : checkSummary) (evs : list Event) : Prop :=
  if armed ticker
  then paced (Z.to_nat (Count cfg - ChecksRan s)) evs
  else count_ticks evs = 0%nat.

(** Configurations and environments the statements are tried on. *)
Definition three_checks : CheckConfig :=
  mkCheckConfig "http://x" 3 0 100 "GET" "{}" 200.

Definition two_paced_checks : CheckConfig :=
  mkCheckConfig "http://x" 2 1 100 "GET" "{}" 200.

Definition long_delay (count : Z) : CheckConfig :=
  mkCheckConfig "http://x" count overflowing_seconds 100 "GET" "{}" 200.

Definition long_delay_env (count : string) : Env :=
  <["CHECK_URL" := "http://x"]>
    (<["COUNT" := count]> (<["SECONDS" := "9223372037"]> ∅)).

Definition url_x : URL := mkURL "http://x" "http://x".

(** The integer part of the product [(percent / 100) * count] computed in
    the binary format of precision [prec] and exponent bound [emax]. *)
Definition required_in (prec emax : Z) (percent count : Z) : option Z :=
  float32.truncate
    (SFmul prec emax
       (SFdiv prec emax (binary_normalize prec emax percent 0 false)
          (binary_normalize prec emax 100 0 false))
       (binary_normalize prec emax count 0 false)).

(** Whether, for every percent below [percents] and every count below
    [counts], [passInt] is the exact [floor (percent * count / 100)] or one
    less. *)
Definition threshold_close (percents counts : nat) : bool :=
  forallb
    (fun p =>
       forallb
         (fun c =>
            match passInt (mkCheckConfig "" (Z.of_nat c) 0 (Z.of_nat p) "" "" 0) with
            | Some r =>
                let exact := Z.of_nat p * Z.of_nat c / 100 in
                (exact - 1 <=? r) && (r <=? exact)
            | None => false
            end)
         (seq 0 counts))
    (seq 0 percents).

(* ===================================================================== *)
(** ** main.go: main and reportFailureAndExit *)
(* ===================================================================== *)

(** The errors [main] hands to [reportFailureAndExit]. *)
Inductive MainError : Type :=
| FromParseConfig (e : ConfigError)
| FromURLParse (text : string)
| FromRunChecks (e : CallError)
| FromVerdict (e : VerdictError).

(** What the process sent to Kuberhealthy through [checkclient]. *)
Inductive Report : Type :=
| SentSuccess
| SentFailure (messages : list string).

(** How the process ends: [main] returns or calls [os.Exit(0)]; or
    [log.Fatalln] prints [reportErr] and exits with status 1 after the
    report was refused; or a panic ends it with status 2; [Unfinished] is
    the loop out of fuel. [sent] is the report handed to [checkclient]. *)
Inductive ProcessEnd : Type :=
| ExitZero (sent : Report)
| Fatal (sent : Report) (reportErr : string)
| Crash (reason : string)
| Unfinished.

Definition exit_status (e : ProcessEnd) : option Z :=
  match e with
  | ExitZero _ => Some 0
  | Fatal _ _ => Some 1
  | Crash _ => Some 2
  | Unfinished => None
  end.

Definition report_of (e : ProcessEnd) : option Report :=
  match e with
  | ExitZero sent | Fatal sent _ => Some sent
  | Crash _ | Unfinished => None
  end.

Section Main.

Variable net : Trace -> NetCall -> Response + NetError.
Variable url_Parse : string -> option URL.

(** The text of the error [url.Parse] returns for a string it rejects. *)
Variable url_Parse_error : string -> string.

(** [nodecheck.WaitForKuberhealthy]: nil or the text of its error. *)
Variable WaitForKuberhealthy : option string.

(** [checkclient.ReportSuccess] and [checkclient.ReportFailure]: nil or the
    text of the error. *)
Variable ReportSuccess : option string.
Variable ReportFailure : list string -> option string.

(** [err.Error()]. *)
Variable Error_text : MainError -> string.

(** What [int(f)] gives on this platform for an [f] whose integer part is
    not an [int]. *)
Variable platform_int : spec_float -> Z.

(** [reportFailureAndExit]. *)
Definition reportFailureAndExit (err : MainError) : IO ProcessEnd :=
  (* Log the error and report to Kuberhealthy. *)
  log_Errorln [LStr (Error_text err)] ;;;
  match ReportFailure [Error_text err] with
  | Some reportErr => ret (Fatal (SentFailure [Error_text err]) reportErr)
  | None => ret (ExitZero (SentFailure [Error_text err]))
  end.

(** Line 61 of [main], on this platform. *)
Definition passInt_here (cfg : CheckConfig) : Z :=
  match passInt cfg with
  | Some r => r
  | None => platform_int (passingScore cfg)
  end.

(** [main]. [nodecheck.EnableDebugOutput] and the context of the readiness
    wait change nothing the check does. *)
Definition main (env : Env) : IO ProcessEnd :=
  (* Parse configuration. *)
  match parseConfig env with
  | inr err => reportFailureAndExit (FromParseConfig err)
  | inl cfg =>
      (* Validate URL. *)
      match url_Parse (CheckURL cfg) with
      | None =>
          log_Errorln [LStr "Cannot parse provided URL:";
                       LStr (url_Parse_error (CheckURL cfg))] ;;;
          reportFailureAndExit (FromURLParse (url_Parse_error (CheckURL cfg)))
      | Some parsedURL =>
          (* Wait for Kuberhealthy endpoint readiness. *)
          match WaitForKuberhealthy with
          | Some err =>
              log_Errorln
                [LStr "Error waiting for kuberhealthy endpoint to be contactable by checker pod with error:";
                 LStr err]
          | None => ret tt
          end ;;;
          (* Calculate passing threshold. *)
          let passInt := passInt_here cfg in
          log_Infoln [LStr "Looking for at least"; LInt (PassingPercent cfg);
                      LStr "percent of"; LInt (Count cfg);
                      LStr "checks to pass"] ;;;
          (* Run the configured checks. *)
          let! r := runChecks net url_Parse cfg parsedURL in
          match r with
          | Panicked reason => ret (Crash reason)
          | OutOfFuel => ret Unfinished
          | Returned (summary, Some err) =>
              reportFailureAndExit (FromRunChecks err)
          | Returned (summary, None) =>
              (* Log run summary. *)
              log_Infoln [LInt (ChecksRan summary); LStr "checks ran"] ;;;
              log_Infoln [LInt (ChecksPassed summary); LStr "checks passed"] ;;;
              log_Infoln [LInt (ChecksFailed summary); LStr "checks failed"] ;;;
              (* Ensure enough checks passed. *)
              match verdict cfg parsedURL passInt summary with
              | Some reportErr => reportFailureAndExit (FromVerdict reportErr)
              | None =>
                  (* Report success to Kuberhealthy. *)
                  match ReportSuccess with
                  | Some err => ret (Fatal SentSuccess err)
                  | None =>
                      log_Infoln [LStr "Successfully reported to Kuberhealthy"] ;;;
                      ret (ExitZero SentSuccess)
                  end
              end
          end
      end
  end.

End Main.

(** The numeric variables, in the order [parseConfig] converts them. *)
Definition numeric_variables : list string :=
  ["COUNT"; "SECONDS"; "PASSING_PERCENT"; "EXPECTED_STATUS_CODE"].

(** The variables [parseConfig] reads. *)
Definition config_variables : list string :=
  "CHECK_URL" :: optional_variables.

(** The redacted URL an error of [callAPI] carries. *)
Definition redacted_of (e : CallError) : string :=
  match e with
  | ErrCalling redacted _ => redacted
  | ErrWrongRequestType redacted => redacted
  end.

(** The lines of the loop at a level. *)
Definition is_loop_line (level : LogLevel) (e : Event) : bool :=
  match e, level with
  | EvLog LevelInfo (LStr "Got a" :: _), LevelInfo => true
  | EvLog LevelError (LStr "Got a" :: _), LevelError => true
  | EvLog LevelError (LStr "Failed to reach URL:" :: _), LevelError => true
  | _, _ => false
  end.

Definition count_lines (level : LogLevel) (evs : list Event) : nat :=
  length (filter (fun e => is_loop_line level e = true) evs).

(** A numeric variable [parseConfig] does not stumble on: empty, or a
    decimal [int]. *)
Definition converts_or_empty (env : Env) (name : string) : Prop :=
  Getenv env name = "" \/ exists z, strconv.Atoi (Getenv env name) = inl z.

Definition sample_env : Env :=
  <["CHECK_URL" := "https://example.com"]>
    (<["COUNT" := "-5"]>
       (<["PASSING_PERCENT" := "250"]> (<["REQUEST_TYPE" := "get"]> ∅))).

(** A request [callAPI] hands to the HTTP client: the method is GET, or it
    is POST, PUT, DELETE or PATCH and [http.NewRequest] parses the URL. *)
Definition dispatched (url_Parse : string -> option URL) (cfg : CheckConfig)
    (u : URL) : Prop :=
  RequestType cfg = http.MethodGet \/
  (In (RequestType cfg) body_methods /\ url_Parse (url_String u) <> None).

(** A network that answers every call with the status [code]. *)
Definition always (code : Z) : Trace -> NetCall -> Response + NetError :=
  fun _ _ => inl (mkResponse code).

(** A network that refuses every call. *)
Definition refusing : Trace -> NetCall -> Response + NetError :=
  fun _ _ => inr "connection refused".

(** Whether an iteration whose call returned [r] counts as passed. *)
Definition passes (cfg : CheckConfig) (r : Response + CallError) : bool :=
  match r with
  | inl response => StatusCode response =? ExpectedStatusCode cfg
  | inr _ => false
  end.

(** What [main] logs before the loop, given the result of the readiness
    wait. *)
Definition prelude (WaitForKuberhealthy : option string) (cfg : CheckConfig)
  : list Event :=
  match WaitForKuberhealthy with
  | Some err =>
      [EvLog LevelError
         [LStr "Error waiting for kuberhealthy endpoint to be contactable by checker pod with error:";
          LStr err]]
  | None => []
  end ++
  [EvLog LevelInfo [LStr "Looking for at least"; LInt (PassingPercent cfg);
                    LStr "percent of"; LInt (Count cfg);
                    LStr "checks to pass"]].

(** The three lines of the run summary. *)
Definition summary_lines (s : checkSummary) : list Event :=
  [EvLog LevelInfo [LInt (ChecksRan s); LStr "checks ran"];
   EvLog LevelInfo [LInt (ChecksPassed s); LStr "checks passed"];
   EvLog LevelInfo [LInt (ChecksFailed s); LStr "checks failed"]].

(** Collaborators the statements are tried on: a sink that accepts every
    report, a ready endpoint, and fixed texts. *)
Definition accepting : list string -> option string := fun _ => None.

Definition plain_text (err : MainError) : string :=
  match err with
  | FromParseConfig e => ConfigError_message e
  | FromURLParse text => text
  | FromRunChecks _ => "error occurred while calling the URL"
  | FromVerdict _ => "unable to retrieve a valid response"
  end.

Definition no_parse_error : string -> string := fun _ => "parse error".

Definition min_int_on_overflow : spec_float -> Z := fun _ => GoInt.int_min.

(** [main] with these collaborators. *)
Definition sample_main (net : Trace -> NetCall -> Response + NetError)
    (env : Env) : IO ProcessEnd :=
  main net parse_any no_parse_error None None accepting plain_text
    min_int_on_overflow env.

Definition ten_checks_env : Env :=
  <["CHECK_URL" := "http://x"]> (<["COUNT" := "10"]> ∅).

Definition long_delay_main_env : Env :=
  <["CHECK_URL" := "http://x"]>
    (<["COUNT" := "10"]> (<["SECONDS" := "9223372037"]> ∅)).

Definition three_checks_env : Env :=
  <["CHECK_URL" := "http://x"]> (<["COUNT" := "3"]> ∅).

(** What the loop may append to the trace: an HTTP call, a tick, or one of
    its two log lines, which name GET and the redacted URL. *)
Definition loop_event (u : URL) (e : Event) : Prop :=
  match e with
  | EvNet _ | EvTick => True
  | EvLog _ args =>
      args = [LStr "Failed to reach URL:"; LStr (url_Redacted u)] \/
      exists code,
        args = [LStr "Got a"; LInt code; LStr "with a"; LStr "GET";
                LStr "to"; LStr (url_Redacted u)]
  end.

Definition two_posts : CheckConfig :=
  mkCheckConfig "http://user:secret@x" 2 0 100 "POST" "{}" 200.

Definition url_with_password : URL :=
  mkURL "http://user:secret@x" "http://user:xxxxx@x".

(** The field of the optional variable [name] holds its default. *)
Definition holds_default (name : string) (cfg : CheckConfig) : Prop :=
  (name = "COUNT" -> Count cfg = defaultCount) /\
  (name = "SECONDS" -> Seconds cfg = defaultSeconds) /\
  (name = "PASSING_PERCENT" -> PassingPercent cfg = defaultPassingPercent) /\
  (name = "REQUEST_TYPE" -> RequestType cfg = defaultRequestType) /\
  (name = "REQUEST_BODY" -> RequestBody cfg = defaultRequestBody) /\
  (name = "EXPECTED_STATUS_CODE" ->
   ExpectedStatusCode cfg = defaultExpectedStatusCode).

(* ===================================================================== *)
(** * Configuration *)
(* ===================================================================== *)

Section ConfigFacts.

Implicit Types (env : Env) (cfg : CheckConfig) (name : string).

Lemma Getenv_insert_eq env name v : Getenv (<[name := v]> env) name = v.
Proof. unfold Getenv. by rewrite lookup_insert_eq. Qed.

Lemma Getenv_insert_ne env name v name' :
  name <> name' -> Getenv (<[name := v]> env) name' = Getenv env name'.
Proof. intros. unfold Getenv. by rewrite lookup_insert_ne. Qed.

Lemma Getenv_delete_eq env name : Getenv (delete name env) name = "".
Proof. unfold Getenv. by rewrite lookup_delete_eq. Qed.

Lemma Getenv_delete_ne env name name' :
  name <> name' -> Getenv (delete name env) name' = Getenv env name'.
Proof. intros. unfold Getenv. by rewrite lookup_delete_ne. Qed.

(** An unset variable and a variable set to the empty string read the
    same. *)
Lemma Getenv_empty_absent env name name' :
  Getenv (<[name := ""]> env) name' = Getenv (delete name env) name'.
Proof.
  destruct (decide (name = name')) as [<- | Hne].
  - by rewrite Getenv_insert_eq, Getenv_delete_eq.
  - by rewrite Getenv_insert_ne, Getenv_delete_ne.
Qed.

Lemma length_zero_empty (s : string) :
  Nat.eqb (String.length s) 0 = true <-> s = "".
Proof. destruct s; simpl; split; congruence. Qed.

Lemma parse_int_var_read env name set cfg :
  parse_int_var env name set cfg =
  let? o := read_int env name in
  inl (match o with Some z => set z cfg | None => cfg end).
Proof.
  unfold parse_int_var, read_int.
  destruct (Nat.eqb _ 0); simpl; [reflexivity |].
  destruct (strconv.Atoi _); reflexivity.
Qed.

Lemma parse_string_var_read env name set cfg :
  parse_string_var env name set cfg =
  match read_string env name with Some v => set v cfg | None => cfg end.
Proof.
  unfold parse_string_var, read_string.
  destruct (Nat.eqb _ 0); reflexivity.
Qed.

(** [parseConfig] as a function of what its blocks read. *)
Lemma parseConfig_reads env :
  parseConfig env =
  if Nat.eqb (String.length (Getenv env "CHECK_URL")) 0 then inr ErrEmptyURL
  else if negb (String.prefix "http" (Getenv env "CHECK_URL"))
  then inr ErrUnsupportedProtocol
  else
    let? count := read_int env "COUNT" in
    let? seconds := read_int env "SECONDS" in
    let? passing := read_int env "PASSING_PERCENT" in
    let? status := read_int env "EXPECTED_STATUS_CODE" in
    inl (mkCheckConfig (Getenv env "CHECK_URL")
           (default defaultCount count)
           (default defaultSeconds seconds)
           (zero_to defaultPassingPercent (default defaultPassingPercent passing))
           (default defaultRequestType (read_string env "REQUEST_TYPE"))
           (default defaultRequestBody (read_string env "REQUEST_BODY"))
           (zero_to defaultExpectedStatusCode
              (default defaultExpectedStatusCode status))).
Proof.
  unfold parseConfig.
  destruct (Nat.eqb _ 0); [reflexivity |].
  destruct (negb _); [reflexivity |].
  rewrite parse_int_var_read.
  destruct (read_int env "COUNT") as [count | e]; [cbn [bindE] | reflexivity].
  rewrite parse_int_var_read.
  destruct (read_int env "SECONDS") as [seconds | e]; [cbn [bindE] | reflexivity].
  rewrite parse_int_var_read.
  destruct (read_int env "PASSING_PERCENT") as [passing | e];
    [cbn [bindE] | reflexivity].
  rewrite !parse_string_var_read, parse_int_var_read.
  destruct (read_int env "EXPECTED_STATUS_CODE") as [status | e];
    [cbn [bindE] | reflexivity].
  f_equal. unfold zero_to.
  destruct count, seconds, passing, status,
    (read_string env "REQUEST_TYPE"), (read_string env "REQUEST_BODY");
    cbn;
    repeat match goal with |- context [?a =? 0] => destruct (a =? 0) end;
    reflexivity.
Qed.

Lemma read_int_ext env env' name :
  Getenv env name = Getenv env' name -> read_int env name = read_int env' name.
Proof. unfold read_int. by intros ->. Qed.

Lemma read_string_ext env env' name :
  Getenv env name = Getenv env' name ->
  read_string env name = read_string env' name.
Proof. unfold read_string. by intros ->. Qed.

(** [parseConfig] sees the environment through [os.Getenv] only. *)
Lemma parseConfig_ext env env' :
  (forall name, Getenv env name = Getenv env' name) ->
  parseConfig env = parseConfig env'.
Proof.
  intros H. rewrite !parseConfig_reads.
  rewrite !(read_int_ext env env'), !(read_string_ext env env') by apply H.
  by rewrite H.
Qed.

Lemma read_int_value env name z :
  strconv.Atoi (Getenv env name) = inl z -> read_int env name = inl (Some z).
Proof.
  unfold read_int. intros H. rewrite H.
  destruct (Getenv env name); [discriminate H | reflexivity].
Qed.

Lemma read_int_empty env name :
  Getenv env name = "" -> read_int env name = inl None.
Proof. unfold read_int. by intros ->. Qed.

Lemma read_string_empty env name :
  Getenv env name = "" -> read_string env name = None.
Proof. unfold read_string. by intros ->. Qed.

End ConfigFacts.

Lemma zero_to_nonzero (dflt v : Z) : dflt <> 0 -> zero_to dflt v <> 0.
Proof. unfold zero_to. intros. destruct (Z.eqb_spec v 0); congruence. Qed.

(** Every configuration [parseConfig] accepts has the URL of the
    environment, starting with [http], and neither a zero passing percent
    nor a zero expected status code. *)
Lemma parseConfig_accepts (env : Env) (cfg : CheckConfig) :
  parseConfig env = inl cfg ->
  CheckURL cfg = Getenv env "CHECK_URL" /\
  String.prefix "http" (CheckURL cfg) = true /\
  PassingPercent cfg <> 0 /\ ExpectedStatusCode cfg <> 0.
Proof.
  rewrite parseConfig_reads.
  destruct (Nat.eqb _ 0); [discriminate |].
  destruct (String.prefix _ _) eqn:Hp; [cbn [negb] | discriminate].
  destruct (read_int env "COUNT"); [cbn [bindE] | discriminate].
  destruct (read_int env "SECONDS"); [cbn [bindE] | discriminate].
  destruct (read_int env "PASSING_PERCENT"); [cbn [bindE] | discriminate].
  destruct (read_int env "EXPECTED_STATUS_CODE"); [cbn [bindE] | discriminate].
  intros [= <-]. cbn.
  repeat split; try assumption; by apply zero_to_nonzero.
Qed.

(** C3. After parsing, a passing percent of zero is 100 and an expected
    status code of zero is 200: a value that converts to zero gives the
    configuration, and so the required number of passes, that the default
    written out gives; no accepted configuration holds a zero in either
    field. *)
Theorem zero_is_coerced_to_default (env : Env) (s : string) :
  strconv.Atoi s = inl 0 ->
  parseConfig (<["PASSING_PERCENT" := s]> env)
    = parseConfig (<["PASSING_PERCENT" := "100"]> env) /\
  parseConfig (<["EXPECTED_STATUS_CODE" := s]> env)
    = parseConfig (<["EXPECTED_STATUS_CODE" := "200"]> env) /\
  (forall cfg, parseConfig (<["PASSING_PERCENT" := s]> env) = inl cfg ->
     PassingPercent cfg = 100) /\
  (forall cfg, parseConfig (<["EXPECTED_STATUS_CODE" := s]> env) = inl cfg ->
     ExpectedStatusCode cfg = 200) /\
  (forall cfg0 cfg100,
     parseConfig (<["PASSING_PERCENT" := s]> env) = inl cfg0 ->
     parseConfig (<["PASSING_PERCENT" := "100"]> env) = inl cfg100 ->
     passInt cfg0 = passInt cfg100) /\
  (forall cfg, parseConfig env = inl cfg ->
     PassingPercent cfg <> 0 /\ ExpectedStatusCode cfg <> 0).
Proof.
  intros Hs.
  assert (Hpp : parseConfig (<["PASSING_PERCENT" := s]> env)
                = parseConfig (<["PASSING_PERCENT" := "100"]> env)).
  { rewrite !parseConfig_reads.
    rewrite !(Getenv_insert_ne _ "PASSING_PERCENT" _ "CHECK_URL") by done.
    rewrite !(read_int_ext (<["PASSING_PERCENT" := _]> env) env "COUNT"),
      !(read_int_ext (<["PASSING_PERCENT" := _]> env) env "SECONDS"),
      !(read_int_ext (<["PASSING_PERCENT" := _]> env) env "EXPECTED_STATUS_CODE"),
      !(read_string_ext (<["PASSING_PERCENT" := _]> env) env "REQUEST_TYPE"),
      !(read_string_ext (<["PASSING_PERCENT" := _]> env) env "REQUEST_BODY")
      by (by apply Getenv_insert_ne).
    rewrite (read_int_value _ "PASSING_PERCENT" 0)
      by (by rewrite Getenv_insert_eq).
    rewrite (read_int_value _ "PASSING_PERCENT" 100)
      by (by rewrite Getenv_insert_eq).
    reflexivity. }
  assert (Hsc : parseConfig (<["EXPECTED_STATUS_CODE" := s]> env)
                = parseConfig (<["EXPECTED_STATUS_CODE" := "200"]> env)).
  { rewrite !parseConfig_reads.
    rewrite !(Getenv_insert_ne _ "EXPECTED_STATUS_CODE" _ "CHECK_URL") by done.
    rewrite !(read_int_ext (<["EXPECTED_STATUS_CODE" := _]> env) env "COUNT"),
      !(read_int_ext (<["EXPECTED_STATUS_CODE" := _]> env) env "SECONDS"),
      !(read_int_ext (<["EXPECTED_STATUS_CODE" := _]> env) env "PASSING_PERCENT"),
      !(read_string_ext (<["EXPECTED_STATUS_CODE" := _]> env) env "REQUEST_TYPE"),
      !(read_string_ext (<["EXPECTED_STATUS_CODE" := _]> env) env "REQUEST_BODY")
      by (by apply Getenv_insert_ne).
    rewrite (read_int_value _ "EXPECTED_STATUS_CODE" 0)
      by (by rewrite Getenv_insert_eq).
    rewrite (read_int_value _ "EXPECTED_STATUS_CODE" 200)
      by (by rewrite Getenv_insert_eq).
    reflexivity. }
  split; [exact Hpp |]. split; [exact Hsc |].
  split; [| split; [| split]].
  - intros cfg. rewrite parseConfig_reads.
    rewrite (read_int_value _ "PASSING_PERCENT" 0)
      by (by rewrite Getenv_insert_eq).
    destruct (Nat.eqb _ 0); [discriminate |].
    destruct (negb _); [discriminate |].
    destruct (read_int _ "COUNT"); [cbn [bindE] | discriminate].
    destruct (read_int _ "SECONDS"); [cbn [bindE] | discriminate].
    destruct (read_int _ "EXPECTED_STATUS_CODE"); [cbn [bindE] | discriminate].
    by intros [= <-].
  - intros cfg. rewrite parseConfig_reads.
    rewrite (read_int_value _ "EXPECTED_STATUS_CODE" 0)
      by (by rewrite Getenv_insert_eq).
    destruct (Nat.eqb _ 0); [discriminate |].
    destruct (negb _); [discriminate |].
    destruct (read_int _ "COUNT"); [cbn [bindE] | discriminate].
    destruct (read_int _ "SECONDS"); [cbn [bindE] | discriminate].
    destruct (read_int _ "PASSING_PERCENT"); [cbn [bindE] | discriminate].
    by intros [= <-].
  - intros cfg0 cfg100 H0 H100. rewrite Hpp, H100 in H0. by injection H0 as ->.
  - intros cfg H. by destruct (parseConfig_accepts env cfg H) as (_ & _ & ? & ?).
Qed.

Lemma zero_is_coerced_to_default_witness :
  parseConfig (<["PASSING_PERCENT" := "0"]> {["CHECK_URL" := "http://x"]})
    = inl (mkCheckConfig "http://x" 0 0 100 "GET" "{}" 200) /\
  parseConfig (<["EXPECTED_STATUS_CODE" := "0"]> {["CHECK_URL" := "http://x"]})
    = parseConfig (<["EXPECTED_STATUS_CODE" := "200"]> {["CHECK_URL" := "http://x"]}).
Proof.
  assert (H0 : strconv.Atoi "0" = inl 0) by reflexivity.
  destruct (zero_is_coerced_to_default {["CHECK_URL" := "http://x"]} "0" H0)
    as (Hpp & Hsc & _).
  split; [rewrite Hpp; vm_compute; reflexivity | exact Hsc].
Defined.

Lemma Getenv_Some (env : Env) (name v : string) :
  env !! name = Some v -> Getenv env name = v.
Proof. unfold Getenv. by intros ->. Qed.

Lemma Getenv_None (env : Env) (name : string) :
  env !! name = None -> Getenv env name = "".
Proof. unfold Getenv. by intros ->. Qed.

Lemma parseConfig_only_url (url : string) :
  String.prefix "http" url = true ->
  parseConfig {["CHECK_URL" := url]}
  = inl (mkCheckConfig url defaultCount defaultSeconds defaultPassingPercent
           defaultRequestType defaultRequestBody defaultExpectedStatusCode).
Proof.
  intros Hp. rewrite parseConfig_reads.
  assert (Hu : Getenv {["CHECK_URL" := url]} "CHECK_URL" = url)
    by (unfold Getenv; by rewrite lookup_singleton_eq).
  assert (He : forall name, name <> "CHECK_URL" ->
                 Getenv {["CHECK_URL" := url]} name = "")
    by (intros name Hn; unfold Getenv; by rewrite lookup_singleton_ne).
  rewrite Hu, Hp.
  destruct url as [| c url']; [discriminate Hp |]. cbn [String.length Nat.eqb negb].
  rewrite !read_int_empty, !read_string_empty by (by apply He).
  reflexivity.
Qed.

(** C4. [parseConfig] fails when CHECK_URL is missing or empty, fails when
    its value does not start with [http], and otherwise never fails on
    the URL: an accepted configuration holds the value unchanged, and an
    environment that sets only a URL starting with [http] is accepted. *)
Theorem check_url_is_validated (env : Env) :
  (env !! "CHECK_URL" = None \/ env !! "CHECK_URL" = Some "" ->
   parseConfig env = inr ErrEmptyURL) /\
  (forall url, env !! "CHECK_URL" = Some url -> url <> "" ->
     String.prefix "http" url = false ->
     parseConfig env = inr ErrUnsupportedProtocol) /\
  (forall url, env !! "CHECK_URL" = Some url ->
     String.prefix "http" url = true ->
     (exists cfg, parseConfig env = inl cfg /\ CheckURL cfg = url) \/
     (exists name cause, parseConfig env = inr (ErrConvert name cause))) /\
  (forall cfg, parseConfig env = inl cfg ->
     env !! "CHECK_URL" = Some (CheckURL cfg) /\
     String.prefix "http" (CheckURL cfg) = true) /\
  (forall url, String.prefix "http" url = true ->
     exists cfg, parseConfig {["CHECK_URL" := url]} = inl cfg /\
                 CheckURL cfg = url).
Proof.
  split; [| split; [| split; [| split]]].
  - intros H. rewrite parseConfig_reads.
    destruct H as [H | H];
      [rewrite (Getenv_None _ _ H) | rewrite (Getenv_Some _ _ _ H)];
      reflexivity.
  - intros url Hu Hne Hp. rewrite parseConfig_reads.
    rewrite (Getenv_Some _ _ _ Hu), Hp.
    destruct url; [congruence | reflexivity].
  - intros url Hu Hp. rewrite parseConfig_reads.
    rewrite (Getenv_Some _ _ _ Hu), Hp.
    destruct url as [| c url']; [discriminate Hp |].
    cbn [String.length Nat.eqb negb].
    unfold read_int.
    repeat match goal with
           | |- context [Nat.eqb (String.length ?v) 0] =>
               destruct (Nat.eqb (String.length v) 0)
           | |- context [strconv.Atoi ?v] =>
               destruct (strconv.Atoi v); cbn [bindE]
           end; eauto.
  - intros cfg H.
    destruct (parseConfig_accepts env cfg H) as (Hu & Hp & _).
    split; [| exact Hp].
    destruct (env !! "CHECK_URL") as [url |] eqn:E.
    + by rewrite Hu, (Getenv_Some _ _ _ E).
    + rewrite Hu, (Getenv_None _ _ E) in Hp. discriminate Hp.
  - intros url Hp. eexists. split; [by apply parseConfig_only_url | reflexivity].
Qed.

Lemma check_url_is_validated_witness :
  parseConfig {["CHECK_URL" := ""]} = inr ErrEmptyURL /\
  parseConfig ∅ = inr ErrEmptyURL /\
  parseConfig {["CHECK_URL" := "ftp://x"]} = inr ErrUnsupportedProtocol /\
  exists cfg, parseConfig {["CHECK_URL" := "http://x"]} = inl cfg /\
              CheckURL cfg = "http://x".
Proof.
  split; [| split; [| split]].
  - apply (check_url_is_validated {["CHECK_URL" := ""]}). by right.
  - apply (check_url_is_validated ∅). by left.
  - destruct (check_url_is_validated {["CHECK_URL" := "ftp://x"]})
      as (_ & H & _).
    by apply (H "ftp://x").
  - destruct (check_url_is_validated ∅) as (_ & _ & _ & _ & H).
    by apply (H "http://x").
Defined.

Lemma parseConfig_inl_fields (env : Env) (cfg : CheckConfig) :
  parseConfig env = inl cfg ->
  exists count seconds passing status,
    read_int env "COUNT" = inl count /\
    read_int env "SECONDS" = inl seconds /\
    read_int env "PASSING_PERCENT" = inl passing /\
    read_int env "EXPECTED_STATUS_CODE" = inl status /\
    Count cfg = default defaultCount count /\
    Seconds cfg = default defaultSeconds seconds /\
    PassingPercent cfg
      = zero_to defaultPassingPercent (default defaultPassingPercent passing) /\
    RequestType cfg = default defaultRequestType (read_string env "REQUEST_TYPE") /\
    RequestBody cfg = default defaultRequestBody (read_string env "REQUEST_BODY") /\
    ExpectedStatusCode cfg
      = zero_to defaultExpectedStatusCode
          (default defaultExpectedStatusCode status).
Proof.
  rewrite parseConfig_reads.
  destruct (Nat.eqb _ 0); [discriminate |].
  destruct (negb _); [discriminate |].
  destruct (read_int env "COUNT") as [count |]; [cbn [bindE] | discriminate].
  destruct (read_int env "SECONDS") as [seconds |]; [cbn [bindE] | discriminate].
  destruct (read_int env "PASSING_PERCENT") as [passing |];
    [cbn [bindE] | discriminate].
  destruct (read_int env "EXPECTED_STATUS_CODE") as [status |];
    [cbn [bindE] | discriminate].
  intros [= <-]. exists count, seconds, passing, status. cbn.
  repeat split; reflexivity.
Qed.

Lemma read_int_error (env : Env) (name : string) (e : ConfigError) :
  read_int env name = inr e -> exists cause, e = ErrConvert name cause.
Proof.
  unfold read_int.
  destruct (Nat.eqb _ 0); [discriminate |].
  destruct (strconv.Atoi _) as [| cause]; [discriminate |].
  intros [= <-]. by exists cause.
Qed.

(** A conversion error names the variable whose value did not convert. *)
Lemma parseConfig_convert_error (env : Env) (name : string)
    (cause : strconv.NumError) :
  parseConfig env = inr (ErrConvert name cause) ->
  read_int env name = inr (ErrConvert name cause).
Proof.
  rewrite parseConfig_reads.
  destruct (Nat.eqb _ 0); [discriminate |].
  destruct (negb _); [discriminate |].
  destruct (read_int env "COUNT") as [count | e] eqn:E1; cbn [bindE];
    [| intros [= ->]; destruct (read_int_error _ _ _ E1) as [c [= -> ->]];
       exact E1].
  destruct (read_int env "SECONDS") as [seconds | e] eqn:E2; cbn [bindE];
    [| intros [= ->]; destruct (read_int_error _ _ _ E2) as [c [= -> ->]];
       exact E2].
  destruct (read_int env "PASSING_PERCENT") as [passing | e] eqn:E3;
    cbn [bindE];
    [| intros [= ->]; destruct (read_int_error _ _ _ E3) as [c [= -> ->]];
       exact E3].
  destruct (read_int env "EXPECTED_STATUS_CODE") as [status | e] eqn:E4;
    cbn [bindE];
    [| intros [= ->]; destruct (read_int_error _ _ _ E4) as [c [= -> ->]];
       exact E4].
  discriminate.
Qed.

(** A numeric block whose value is empty or converts does not fail. *)
Lemma read_int_passes (env : Env) (name : string) :
  converts_or_empty env name -> exists o, read_int env name = inl o.
Proof.
  unfold converts_or_empty, read_int. intros [-> | [z ->]].
  - cbn. eauto.
  - destruct (Nat.eqb _ 0); eauto.
Qed.

(** A valid CHECK_URL and four numeric blocks that do not fail give a
    configuration. *)
Lemma parseConfig_passes (env : Env) :
  String.prefix "http" (Getenv env "CHECK_URL") = true ->
  (forall n, In n numeric_variables -> exists o, read_int env n = inl o) ->
  exists cfg, parseConfig env = inl cfg.
Proof.
  intros Hurl Hnum. rewrite parseConfig_reads, Hurl.
  destruct (Getenv env "CHECK_URL") as [| c url]; [discriminate Hurl |].
  cbn [String.length Nat.eqb negb].
  destruct (Hnum "COUNT") as [o1 ->]; [simpl; tauto |].
  destruct (Hnum "SECONDS") as [o2 ->]; [simpl; tauto |].
  destruct (Hnum "PASSING_PERCENT") as [o3 ->]; [simpl; tauto |].
  destruct (Hnum "EXPECTED_STATUS_CODE") as [o4 ->]; [simpl; tauto |].
  cbn [bindE]. eauto.
Qed.

(** C10. An optional variable set to the empty string is read as an unset
    one: [parseConfig] gives the same result as without the variable, does
    not report a conversion error for it, and an accepted configuration
    holds the default in the field of that variable. When CHECK_URL is
    valid and the other numeric variables are empty or convert, the
    environment with the empty value is accepted, with that default. *)
Theorem empty_value_is_absent (env : Env) (name : string) :
  In name optional_variables ->
  parseConfig (<[name := ""]> env) = parseConfig (delete name env) /\
  (forall cause,
     parseConfig (<[name := ""]> env) <> inr (ErrConvert name cause)) /\
  (forall cfg,
     parseConfig (<[name := ""]> env) = inl cfg -> holds_default name cfg) /\
  (String.prefix "http" (Getenv env "CHECK_URL") = true ->
   (forall n, In n numeric_variables -> n <> name -> converts_or_empty env n) ->
   exists cfg,
     parseConfig (<[name := ""]> env) = inl cfg /\ holds_default name cfg).
Proof.
  intros Hin.
  assert (Hget : Getenv (<[name := ""]> env) name = "")
    by apply Getenv_insert_eq.
  assert (Hdefaults : forall cfg,
            parseConfig (<[name := ""]> env) = inl cfg ->
            holds_default name cfg).
  { intros cfg H. unfold holds_default.
    destruct (parseConfig_inl_fields _ _ H)
      as (count & seconds & passing & status & Hc & Hs & Hp & He
          & -> & -> & -> & -> & -> & ->).
    repeat split; intros ->.
    + rewrite (read_int_empty _ _ Hget) in Hc. by injection Hc as <-.
    + rewrite (read_int_empty _ _ Hget) in Hs. by injection Hs as <-.
    + rewrite (read_int_empty _ _ Hget) in Hp. by injection Hp as <-.
    + by rewrite (read_string_empty _ _ Hget).
    + by rewrite (read_string_empty _ _ Hget).
    + rewrite (read_int_empty _ _ Hget) in He. by injection He as <-. }
  split; [| split; [| split]].
  - apply parseConfig_ext. intros name'. apply Getenv_empty_absent.
  - intros cause H. apply parseConfig_convert_error in H.
    rewrite (read_int_empty _ _ Hget) in H. discriminate H.
  - exact Hdefaults.
  - intros Hurl Hothers.
    assert (Hne : name <> "CHECK_URL")
      by (intros ->; simpl in Hin;
          destruct Hin as [H | [H | [H | [H | [H | [H | []]]]]]];
          discriminate H).
    destruct (parseConfig_passes (<[name := ""]> env)) as [cfg Hcfg].
    + by rewrite Getenv_insert_ne.
    + intros n Hn. destruct (String.eqb_spec n name) as [-> | Hnn].
      * exists None. by apply read_int_empty.
      * apply read_int_passes. unfold converts_or_empty.
        rewrite Getenv_insert_ne by congruence. by apply Hothers.
    + exists cfg. split; [exact Hcfg | by apply Hdefaults].
Qed.

Lemma empty_value_is_absent_witness :
  parseConfig (<["COUNT" := ""]> {["CHECK_URL" := "http://x"]})
    = parseConfig (delete "COUNT" {["CHECK_URL" := "http://x"]}) /\
  (exists cfg,
     parseConfig (<["COUNT" := ""]> {["CHECK_URL" := "http://x"]}) = inl cfg /\
     Count cfg = 0) /\
  (exists cfg,
     parseConfig (<["REQUEST_BODY" := ""]> {["CHECK_URL" := "http://x"]})
       = inl cfg /\
     RequestBody cfg = "{}").
Proof.
  assert (Hothers : forall name n,
            In n numeric_variables -> n <> name ->
            converts_or_empty {["CHECK_URL" := "http://x"]} n).
  { intros name n Hn _. left.
    destruct Hn as [<- | [<- | [<- | [<- | []]]]]; reflexivity. }
  split; [| split].
  - apply (empty_value_is_absent {["CHECK_URL" := "http://x"]} "COUNT").
    simpl. tauto.
  - assert (Hin : In "COUNT" optional_variables) by (simpl; tauto).
    destruct (empty_value_is_absent {["CHECK_URL" := "http://x"]}
                "COUNT" Hin) as (_ & _ & _ & Hacc).
    destruct (Hacc eq_refl (Hothers "COUNT")) as (cfg & Hcfg & Hd).
    exists cfg. split; [exact Hcfg | by apply Hd].
  - assert (Hin : In "REQUEST_BODY" optional_variables) by (simpl; tauto).
    destruct (empty_value_is_absent {["CHECK_URL" := "http://x"]}
                "REQUEST_BODY" Hin) as (_ & _ & _ & Hacc).
    destruct (Hacc eq_refl (Hothers "REQUEST_BODY")) as (cfg & Hcfg & Hd).
    exists cfg. split; [exact Hcfg | by apply Hd].
Defined.

Lemma parse_digits_nonneg (s : string) (n z : Z) :
  0 <= n -> strconv.parse_digits s n = inl z -> 0 <= z.
Proof.
  revert n. induction s as [| c s IH]; intros n Hn; cbn [strconv.parse_digits].
  - by intros [= <-].
  - unfold strconv.digit.
    destruct (_ && _) eqn:Hd; [| discriminate].
    destruct (2 ^ 64 <=? _); [discriminate |].
    apply IH. lia.
Qed.

(** What [strconv.Atoi] returns is an [int]. *)
Lemma Atoi_in_int (s : string) (z : Z) :
  strconv.Atoi s = inl z -> GoInt.in_int z.
Proof.
  unfold strconv.Atoi, strconv.ParseInt.
  destruct s as [| c rest]; [discriminate |].
  cbv zeta.
  match goal with |- context [strconv.ParseUint ?b] => set (body := b) end.
  destruct (strconv.ParseUint body) as [un |] eqn:E; [| discriminate].
  assert (Hun : 0 <= un).
  { unfold strconv.ParseUint in E. destruct body; [discriminate |].
    by apply (parse_digits_nonneg _ 0 un) in E. }
  unfold GoInt.in_int, GoInt.int_min, GoInt.int_max.
  destruct (Ascii.eqb c "-"); cbn [negb andb].
  - destruct (Z.ltb_spec (2 ^ 63) un); [discriminate |].
    intros [= <-]. lia.
  - destruct (Z.leb_spec (2 ^ 63) un); [discriminate |].
    intros [= <-]. lia.
Qed.

Lemma read_int_in_int (env : Env) (name : string) (o : option Z) (dflt : Z) :
  read_int env name = inl o -> GoInt.in_int dflt -> GoInt.in_int (default dflt o).
Proof.
  unfold read_int. destruct (Nat.eqb _ 0); [by intros [= <-] |].
  destruct (strconv.Atoi _) as [z |] eqn:E; [| discriminate].
  intros [= <-] _. by apply Atoi_in_int in E.
Qed.

(** The integer fields of an accepted configuration are [int]s. *)
Lemma parseConfig_wf (env : Env) (cfg : CheckConfig) :
  parseConfig env = inl cfg -> wf_config cfg.
Proof.
  intros H. unfold wf_config.
  destruct (parseConfig_inl_fields env cfg H)
    as (count & seconds & passing & status & Hc & Hs & Hp & He
        & -> & -> & -> & _ & _ & ->).
  assert (Hsmall : forall z, 0 <= z <= 200 -> GoInt.in_int z)
    by (unfold GoInt.in_int, GoInt.int_min, GoInt.int_max; lia).
  unfold zero_to.
  repeat split;
    repeat match goal with |- context [?a =? 0] => destruct (a =? 0) end;
    try (eapply read_int_in_int; [eassumption |]);
    apply Hsmall; cbv; split; discriminate.
Qed.

(* ===================================================================== *)
(** * Dispatch *)
(* ===================================================================== *)

Section DispatchFacts.

Variable net : Trace -> NetCall -> Response + NetError.
Variable url_Parse : string -> option URL.

Implicit Types (u : URL) (method body : string) (tr : Trace).

Lemma callAPI_get u body tr :
  callAPI net url_Parse (mkAPIRequest u http.MethodGet body) tr
  = (wrap_reply (ErrCalling (url_Redacted u)) (net tr (HttpGet (url_String u))),
     tr ++ [EvNet (HttpGet (url_String u))]).
Proof.
  unfold callAPI, bind, http_Get, ret. cbn.
  destruct (net tr _); reflexivity.
Qed.

Lemma NewRequest_body_method u method body :
  In method body_methods ->
  http_NewRequest url_Parse method (url_String u) body
  = match url_Parse (url_String u) with
    | Some _ => inl (mkRequest method (url_String u) body)
    | None => inr "parse error"
    end.
Proof.
  intros Hin. unfold http_NewRequest.
  simpl in Hin. destruct Hin as [<- | [<- | [<- | [<- | []]]]]; reflexivity.
Qed.

Lemma callAPI_body_method u method body tr :
  In method body_methods ->
  callAPI net url_Parse (mkAPIRequest u method body) tr
  = match url_Parse (url_String u) with
    | Some _ =>
        let req := mkRequest method (url_String u) body in
        (wrap_reply (ErrCalling (url_Redacted u)) (net tr (ClientDo req)),
         tr ++ [EvNet (ClientDo req)])
    | None => (inr (ErrCalling (url_Redacted u) "parse error"), tr)
    end.
Proof.
  intros Hin. unfold callAPI. cbn [Type_ URL_ Body].
  rewrite (NewRequest_body_method u method body Hin).
  simpl in Hin.
  destruct Hin as [<- | [<- | [<- | [<- | []]]]];
    cbn [String.eqb Ascii.eqb Bool.eqb http.MethodGet http.MethodPost
         http.MethodPut http.MethodDelete http.MethodPatch orb];
    destruct (url_Parse (url_String u)); try reflexivity;
    unfold bind, http_DefaultClient_Do, ret;
    destruct (net tr _); reflexivity.
Qed.

Lemma callAPI_other_method u method body tr :
  method <> http.MethodGet -> ~ In method body_methods ->
  callAPI net url_Parse (mkAPIRequest u method body) tr
  = (inr (ErrWrongRequestType (url_Redacted u)), tr).
Proof.
  intros Hget Hbody. unfold callAPI. cbn [Type_ URL_ Body].
  destruct (String.eqb_spec method http.MethodGet) as [-> | _]; [congruence |].
  destruct (String.eqb_spec method http.MethodPost) as [-> | _];
    [exfalso; apply Hbody; simpl; tauto |].
  destruct (String.eqb_spec method http.MethodPut) as [-> | _];
    [exfalso; apply Hbody; simpl; tauto |].
  destruct (String.eqb_spec method http.MethodDelete) as [-> | _];
    [exfalso; apply Hbody; simpl; tauto |].
  destruct (String.eqb_spec method http.MethodPatch) as [-> | _];
    [exfalso; apply Hbody; simpl; tauto |].
  reflexivity.
Qed.

(** [callAPI] appends nothing or one HTTP call to the trace. *)
Lemma callAPI_trace (request : APIRequest) tr :
  exists evs,
    snd (callAPI net url_Parse request tr) = tr ++ evs /\
    (evs = [] \/ exists call, evs = [EvNet call]).
Proof.
  unfold callAPI, bind, http_Get, http_DefaultClient_Do, ret.
  destruct (String.eqb _ http.MethodGet).
  - eexists. split; [| right; eexists; reflexivity].
    destruct (net tr _); reflexivity.
  - destruct (_ || _).
    + destruct (http_NewRequest _ _ _ _) as [req | err].
      * eexists. split; [| right; eexists; reflexivity].
        destruct (net tr _); reflexivity.
      * exists []. split; [by rewrite app_nil_r | by left].
    + exists []. split; [by rewrite app_nil_r | by left].
Qed.

End DispatchFacts.

(** C5. A method other than GET, POST, PUT, DELETE and PATCH makes
    [callAPI] return its wrong-request-type error with the trace unchanged:
    no HTTP call is made. GET makes exactly one [http.Get] of the URL,
    whatever the body. POST, PUT, DELETE and PATCH make exactly one
    [http.DefaultClient.Do] of a request with that method and that body,
    for a URL that [http.NewRequest] parses. *)
Theorem callAPI_dispatches_on_method
    (net : Trace -> NetCall -> Response + NetError)
    (url_Parse : string -> option URL)
    (u : URL) (method body : string) (tr : Trace) :
  (method <> http.MethodGet -> ~ In method body_methods ->
   callAPI net url_Parse (mkAPIRequest u method body) tr
   = (inr (ErrWrongRequestType (url_Redacted u)), tr)) /\
  (method = http.MethodGet ->
   forall body',
     callAPI net url_Parse (mkAPIRequest u method body') tr
     = (wrap_reply (ErrCalling (url_Redacted u))
          (net tr (HttpGet (url_String u))),
        tr ++ [EvNet (HttpGet (url_String u))])) /\
  (In method body_methods ->
   url_Parse (url_String u) <> None ->
   let req := mkRequest method (url_String u) body in
   req_Method req = method /\ req_Body req = body /\
   callAPI net url_Parse (mkAPIRequest u method body) tr
   = (wrap_reply (ErrCalling (url_Redacted u)) (net tr (ClientDo req)),
      tr ++ [EvNet (ClientDo req)])).
Proof.
  split; [| split].
  - apply callAPI_other_method.
  - intros -> body'. apply callAPI_get.
  - intros Hin Hparse req. split; [reflexivity |]. split; [reflexivity |].
    rewrite (callAPI_body_method net url_Parse u method body tr Hin).
    destruct (url_Parse (url_String u)); [reflexivity | congruence].
Qed.

Lemma callAPI_dispatches_on_method_witness :
  callAPI no_net parse_any (mkAPIRequest (mkURL "http://x" "http://x") "HEAD" "{}") []
  = (inr (ErrWrongRequestType "http://x"), []) /\
  callAPI no_net parse_any (mkAPIRequest (mkURL "http://x" "http://x") "GET" "{}") []
  = (inl (mkResponse 200), [EvNet (HttpGet "http://x")]) /\
  callAPI no_net parse_any (mkAPIRequest (mkURL "http://x" "http://x") "POST" "{}") []
  = (inl (mkResponse 200),
     [EvNet (ClientDo (mkRequest "POST" "http://x" "{}"))]).
Proof.
  pose proof (callAPI_dispatches_on_method no_net parse_any
                (mkURL "http://x" "http://x") "HEAD" "{}" []) as (Hhead & _).
  pose proof (callAPI_dispatches_on_method no_net parse_any
                (mkURL "http://x" "http://x") "GET" "{}" []) as (_ & Hget & _).
  pose proof (callAPI_dispatches_on_method no_net parse_any
                (mkURL "http://x" "http://x") "POST" "{}" []) as (_ & _ & Hpost).
  split; [| split].
  - apply Hhead; [discriminate |].
    simpl. intros [H | [H | [H | [H | []]]]]; discriminate H.
  - apply (Hget eq_refl).
  - apply Hpost; [simpl; tauto | discriminate].
Defined.

(* ===================================================================== *)
(** * The check loop *)
(* ===================================================================== *)

Lemma wrap64_in_int (z : Z) : GoInt.in_int z -> GoInt.wrap64 z = z.
Proof.
  unfold GoInt.in_int, GoInt.int_min, GoInt.int_max, GoInt.wrap64. intros H.
  rewrite Z.mod_small by lia. lia.
Qed.

Lemma incr_no_wrap (x : Z) : 0 <= x < GoInt.int_max -> GoInt.incr x = x + 1.
Proof.
  intros H. unfold GoInt.incr, GoInt.add. apply wrap64_in_int.
  unfold GoInt.in_int, GoInt.int_min, GoInt.int_max in *. lia.
Qed.

Section LoopFacts.

Variable net : Trace -> NetCall -> Response + NetError.
Variable url_Parse : string -> option URL.

Implicit Types (cfg : CheckConfig) (u : URL) (ticker : option time.Ticker)
  (s : checkSummary) (tr : Trace).

Lemma waitForTicker_trace ticker tr :
  waitForTicker ticker tr = (tt, tr ++ if armed ticker then [EvTick] else []).
Proof.
  unfold waitForTicker, armed, emit, ret.
  destruct ticker as [[d []] |]; cbn; by rewrite ?app_nil_r.
Qed.

(** One iteration: the call, the counters, one log line, the wait. *)
Lemma loop_body_unfold cfg u ticker s tr :
  let request := mkAPIRequest u (RequestType cfg) (RequestBody cfg) in
  let r := fst (callAPI net url_Parse request tr) in
  let tr1 := snd (callAPI net url_Parse request tr) in
  loop_body net url_Parse cfg u ticker s tr
  = (next_summary cfg r s,
     tr1 ++ iteration_log cfg u r :: if armed ticker then [EvTick] else []).
Proof.
  cbn zeta. unfold loop_body, bind.
  destruct (callAPI _ _ _ tr) as [[response | err] tr1]; cbn [fst snd].
  - unfold next_summary, iteration_log, log_Errorln, log_Infoln, emit, ret.
    destruct (StatusCode response =? ExpectedStatusCode cfg); cbn [negb];
      rewrite waitForTicker_trace, <- app_assoc; reflexivity.
  - unfold next_summary, iteration_log, log_Errorln, emit, ret.
    rewrite waitForTicker_trace, <- app_assoc; reflexivity.
Qed.

(** A dispatch error is counted as a failed check, and nothing else. *)
Lemma next_summary_error cfg err s :
  next_summary cfg (inr err) s
  = mkCheckSummary (GoInt.incr (ChecksRan s)) (ChecksPassed s)
      (GoInt.incr (ChecksFailed s)).
Proof. reflexivity. Qed.

Lemma next_summary_counts cfg r s :
  GoInt.in_int (Count cfg) ->
  summary_inv cfg s -> ChecksRan s < Count cfg ->
  counts_one s (next_summary cfg r s) /\
  summary_inv cfg (next_summary cfg r s).
Proof.
  intros Hc (Hsum & Hp & Hf & Hle) Hlt.
  assert (Hmax : Count cfg <= GoInt.int_max) by apply Hc.
  assert (Hran : GoInt.incr (ChecksRan s) = ChecksRan s + 1)
    by (apply incr_no_wrap; lia).
  assert (Hpass : GoInt.incr (ChecksPassed s) = ChecksPassed s + 1)
    by (apply incr_no_wrap; lia).
  assert (Hfail : GoInt.incr (ChecksFailed s) = ChecksFailed s + 1)
    by (apply incr_no_wrap; lia).
  unfold counts_one, summary_inv, next_summary.
  destruct r as [response | err];
    [destruct (StatusCode response =? ExpectedStatusCode cfg) |];
    cbn [incr_ChecksRan incr_ChecksPassed incr_ChecksFailed
         ChecksRan ChecksPassed ChecksFailed];
    rewrite ?Hran, ?Hpass, ?Hfail; lia.
Qed.

Lemma loop_done fuel cfg u ticker s tr :
  Count cfg <= ChecksRan s ->
  loop net url_Parse fuel cfg u ticker s tr = (Some s, tr).
Proof.
  intros H. destruct fuel; cbn [loop];
    destruct (Z.ltb_spec (ChecksRan s) (Count cfg)); try lia; reflexivity.
Qed.

Lemma loop_step fuel cfg u ticker s tr :
  ChecksRan s < Count cfg ->
  loop net url_Parse (S fuel) cfg u ticker s tr
  = let st := loop_body net url_Parse cfg u ticker s tr in
    loop net url_Parse fuel cfg u ticker (fst st) (snd st).
Proof.
  intros H. cbn [loop].
  destruct (Z.ltb_spec (ChecksRan s) (Count cfg)); [| lia].
  unfold bind. by destruct (loop_body _ _ _ _ _ _ _).
Qed.

Lemma count_ticks_app (l1 l2 : list Event) :
  count_ticks (l1 ++ l2) = (count_ticks l1 + count_ticks l2)%nat.
Proof. unfold count_ticks. by rewrite filter_app, length_app. Qed.

Lemma count_net_app (l1 l2 : list Event) :
  count_net (l1 ++ l2) = (count_net l1 + count_net l2)%nat.
Proof. unfold count_net. by rewrite filter_app, length_app. Qed.

(** The events of one iteration before the wait. *)
Lemma iteration_events cfg u ticker s tr :
  exists evs,
    snd (loop_body net url_Parse cfg u ticker s tr)
    = tr ++ evs ++ (if armed ticker then [EvTick] else []) /\
    Forall (fun e => is_tick e = false) evs /\
    (count_net evs <= 1)%nat.
Proof.
  rewrite loop_body_unfold. cbn [snd].
  destruct (callAPI_trace net url_Parse
              (mkAPIRequest u (RequestType cfg) (RequestBody cfg)) tr)
    as (evs & -> & Hevs).
  set (r := fst _). exists (evs ++ [iteration_log cfg u r]).
  split; [by rewrite <- !app_assoc |].
  assert (Hlog : is_tick (iteration_log cfg u r) = false
                 /\ is_net (iteration_log cfg u r) = false)
    by (by destruct r).
  destruct Hlog as [Hlt Hln].
  unfold count_net.
  destruct Hevs as [-> | [call ->]]; cbn [app]; split.
  - by repeat constructor.
  - rewrite filter_cons_False by (rewrite Hln; discriminate). cbn. lia.
  - by repeat constructor.
  - rewrite filter_cons_True by reflexivity.
    rewrite filter_cons_False by (rewrite Hln; discriminate). cbn. lia.
Qed.

Lemma loop_reaches_trans cfg u ticker st1 st2 st3 :
  loop_reaches net url_Parse cfg u ticker st1 st2 ->
  loop_reaches net url_Parse cfg u ticker st2 st3 ->
  loop_reaches net url_Parse cfg u ticker st1 st3.
Proof.
  intros H12 H23. induction H23 as [| s tr _ IH Hlt]; [exact H12 |].
  by constructor.
Qed.

Lemma run_events_done cfg ticker s :
  Count cfg <= ChecksRan s -> run_events cfg ticker s [].
Proof.
  intros H. unfold run_events.
  replace (Z.to_nat (Count cfg - ChecksRan s)) with 0%nat by lia.
  destruct (armed ticker); [constructor | reflexivity].
Qed.

Lemma count_ticks_none (evs : list Event) :
  Forall (fun e => is_tick e = false) evs -> count_ticks evs = 0%nat.
Proof.
  unfold count_ticks. induction 1 as [| e l He _ IHl]; [reflexivity |].
  by rewrite filter_cons_False by (rewrite He; discriminate).
Qed.

(** With enough fuel the loop ends, at a summary that counts [Count]
    checks, through loop-head states only. *)
Lemma loop_terminates fuel cfg u ticker s tr :
  GoInt.in_int (Count cfg) ->
  summary_inv cfg s ->
  (Z.to_nat (Count cfg - ChecksRan s) <= fuel)%nat ->
  exists s' evs,
    loop net url_Parse fuel cfg u ticker s tr = (Some s', tr ++ evs) /\
    summary_inv cfg s' /\ ChecksRan s' = Count cfg /\
    loop_reaches net url_Parse cfg u ticker (s, tr) (s', tr ++ evs) /\
    run_events cfg ticker s evs.
Proof.
  intros Hc. revert s tr.
  induction fuel as [| fuel IH]; intros s tr Hinv Hfuel;
    (assert (Hle : ChecksRan s <= Count cfg) by apply Hinv);
    destruct (Z.lt_ge_cases (ChecksRan s) (Count cfg)) as [Hlt | Hge];
    try lia;
    try (exists s, []; rewrite app_nil_r, loop_done by lia;
         repeat split; try apply Hinv; try lia;
         [constructor | by apply run_events_done]).
  rewrite loop_step by assumption. cbn zeta.
  destruct (iteration_events cfg u ticker s tr) as (evs1 & Htr & Hnt & Hn1).
  pose proof (loop_body_unfold cfg u ticker s tr) as Hbody. cbn zeta in Hbody.
  set (r := fst (callAPI _ _ _ _)) in Hbody.
  apply (f_equal fst) in Hbody. cbn [fst] in Hbody.
  destruct (next_summary_counts cfg r s Hc Hinv Hlt) as [Hone Hinv'].
  assert (Hran : ChecksRan (next_summary cfg r s) = ChecksRan s + 1)
    by apply Hone.
  assert (Hstep : loop_reaches net url_Parse cfg u ticker (s, tr)
                    (loop_body net url_Parse cfg u ticker s tr))
    by (constructor; [constructor | assumption]).
  destruct (loop_body net url_Parse cfg u ticker s tr) as [s1 tr1].
  cbn [fst snd] in *. subst s1 tr1.
  destruct (IH (next_summary cfg r s)
              (tr ++ evs1 ++ (if armed ticker then [EvTick] else []))
              Hinv' ltac:(lia))
    as (s' & evs & Hloop & Hinv'' & Hcount & Hreach & Hevs).
  exists s', ((evs1 ++ (if armed ticker then [EvTick] else [])) ++ evs).
  rewrite Hloop, !app_assoc.
  rewrite !app_assoc in Hreach, Hstep.
  split; [reflexivity |]. split; [assumption |]. split; [assumption |].
  split; [by eapply loop_reaches_trans |].
  unfold run_events in *. destruct (armed ticker).
  - rewrite Hran in Hevs.
    replace (Z.to_nat (Count cfg - ChecksRan s))
      with (S (Z.to_nat (Count cfg - (ChecksRan s + 1)))) by lia.
    rewrite <- !app_assoc. cbn [app]. by constructor.
  - by rewrite app_nil_r, count_ticks_app, Hevs, count_ticks_none.
Qed.

End LoopFacts.

(* ===================================================================== *)
(** * runChecks *)
(* ===================================================================== *)

(** The ticker of [runChecks]: none without a delay; with one, a ticker
    that waits, unless the duration wrapped to a non-positive value. *)
Lemma start_ticker_cases (cfg : CheckConfig) :
  (Seconds cfg <= 0 /\ start_ticker cfg = Returned None) \/
  (0 < Seconds cfg /\ 0 < GoInt.mul (Seconds cfg) time.Second /\
   exists t, start_ticker cfg = Returned (Some t) /\ armed (Some t) = true) \/
  (0 < Seconds cfg /\ GoInt.mul (Seconds cfg) time.Second <= 0 /\
   start_ticker cfg = Panicked "non-positive interval for NewTicker").
Proof.
  unfold start_ticker, time.NewTicker.
  destruct (Z.ltb_spec 0 (Seconds cfg)); [| left; split; [lia | reflexivity]].
  right.
  destruct (Z.leb_spec (GoInt.mul (Seconds cfg) time.Second) 0).
  - right. repeat split; assumption.
  - left. repeat split; try assumption. eexists. split; reflexivity.
Qed.

(** A delay of at most 9223372036 seconds does not wrap. *)
Lemma start_ticker_no_overflow (cfg : CheckConfig) :
  0 < Seconds cfg <= 9223372036 ->
  start_ticker cfg
  = Returned (Some (time.mkTicker (Seconds cfg * time.Second) true)).
Proof.
  intros H. unfold start_ticker, time.NewTicker, GoInt.mul.
  destruct (Z.ltb_spec 0 (Seconds cfg)); [| lia].
  rewrite wrap64_in_int
    by (unfold GoInt.in_int, GoInt.int_min, GoInt.int_max, time.Second; lia).
  destruct (Z.leb_spec (Seconds cfg * time.Second) 0);
    [unfold time.Second in *; lia | reflexivity].
Qed.

Lemma summary_inv_zero (cfg : CheckConfig) :
  0 <= Count cfg -> summary_inv cfg zero_summary.
Proof. unfold summary_inv, zero_summary. cbn. lia. Qed.

Section RunFacts.

Variable net : Trace -> NetCall -> Response + NetError.
Variable url_Parse : string -> option URL.

Implicit Types (cfg : CheckConfig) (u : URL) (ticker : option time.Ticker)
  (s : checkSummary) (tr : Trace).

Lemma runChecks_fuel_unfold fuel cfg u tr :
  runChecks_fuel net url_Parse fuel cfg u tr
  = match start_ticker cfg with
    | Returned ticker =>
        let st := loop net url_Parse fuel cfg u ticker zero_summary
                    (tr ++ [begin_event]) in
        (match fst st with
         | Some s => Returned (s, None)
         | None => OutOfFuel
         end, snd st)
    | Panicked reason => (Panicked reason, tr ++ [begin_event])
    | OutOfFuel => (OutOfFuel, tr ++ [begin_event])
    end.
Proof.
  unfold runChecks_fuel, bind, log_Infoln, emit, ret, begin_event.
  destruct (start_ticker cfg) as [ticker | reason |]; try reflexivity.
  cbn zeta. destruct (loop _ _ _ _ _ _ _ _) as [[s |] tr']; reflexivity.
Qed.

(** More fuel does not change a loop that ended. *)
Lemma loop_fuel_mono fuel extra cfg u ticker s tr s' tr' :
  loop net url_Parse fuel cfg u ticker s tr = (Some s', tr') ->
  loop net url_Parse (fuel + extra) cfg u ticker s tr = (Some s', tr').
Proof.
  revert s tr. induction fuel as [| fuel IH]; intros s tr H.
  - destruct (Z.lt_ge_cases (ChecksRan s) (Count cfg)) as [Hlt | Hge].
    + cbn [loop] in H. destruct (Z.ltb_spec (ChecksRan s) (Count cfg)); [| lia].
      discriminate H.
    + rewrite loop_done in * by lia. exact H.
  - destruct (Z.lt_ge_cases (ChecksRan s) (Count cfg)) as [Hlt | Hge].
    + cbn [Nat.add]. rewrite loop_step in * by assumption.
      cbn zeta in *. by apply IH.
    + rewrite loop_done in * by lia. exact H.
Qed.

(** Without a ticker panic [runChecks] returns, with a nil error, a
    summary that counts [Count] checks, reached through the loop. *)
Lemma runChecks_returns cfg u tr ticker :
  GoInt.in_int (Count cfg) -> 0 <= Count cfg ->
  start_ticker cfg = Returned ticker ->
  exists s evs,
    runChecks net url_Parse cfg u tr
    = (Returned (s, None), tr ++ begin_event :: evs) /\
    summary_inv cfg s /\ ChecksRan s = Count cfg /\
    loop_reaches net url_Parse cfg u ticker
      (zero_summary, tr ++ [begin_event]) (s, tr ++ begin_event :: evs) /\
    run_events cfg ticker zero_summary evs.
Proof.
  intros Hc H0 Ht. unfold runChecks. rewrite runChecks_fuel_unfold, Ht.
  destruct (loop_terminates net url_Parse (Z.to_nat (Count cfg)) cfg u ticker
              zero_summary (tr ++ [begin_event]) Hc (summary_inv_zero cfg H0))
    as (s & evs & Hloop & Hinv & Hcount & Hreach & Hevs).
  { cbn. lia. }
  exists s, evs. cbn zeta. rewrite Hloop. cbn [fst snd].
  rewrite <- app_assoc in *. cbn [app] in *.
  repeat split; try apply Hinv; assumption.
Qed.

(** The fuel of [runChecks] is enough: any larger amount gives the same
    run. *)
Lemma runChecks_fuel_enough fuel cfg u tr :
  GoInt.in_int (Count cfg) ->
  (Z.to_nat (Count cfg) <= fuel)%nat ->
  runChecks_fuel net url_Parse fuel cfg u tr = runChecks net url_Parse cfg u tr.
Proof.
  intros Hc Hfuel. unfold runChecks. rewrite !runChecks_fuel_unfold.
  destruct (start_ticker cfg) as [ticker | reason |]; try reflexivity.
  cbn zeta.
  destruct (Z.le_gt_cases 0 (Count cfg)) as [H0 | Hneg].
  - destruct (loop_terminates net url_Parse (Z.to_nat (Count cfg)) cfg u ticker
                zero_summary (tr ++ [begin_event]) Hc (summary_inv_zero cfg H0))
      as (s & evs & Hloop & _); [cbn; lia |].
    replace fuel with (Z.to_nat (Count cfg) + (fuel - Z.to_nat (Count cfg)))%nat
      by lia.
    by rewrite (loop_fuel_mono _ _ _ _ _ _ _ _ _ Hloop), Hloop.
  - rewrite !loop_done by (cbn; lia). reflexivity.
Qed.

(** With no check to run, [runChecks] logs its first line, starts the
    ticker and returns the zero summary; nothing else happens. *)
Lemma runChecks_no_iterations cfg u tr :
  Count cfg <= 0 ->
  runChecks net url_Parse cfg u tr
  = (match start_ticker cfg with
     | Returned _ => Returned (zero_summary, None)
     | Panicked reason => Panicked reason
     | OutOfFuel => OutOfFuel
     end, tr ++ [begin_event]).
Proof.
  intros H. unfold runChecks. rewrite runChecks_fuel_unfold.
  destruct (start_ticker cfg); try reflexivity.
  cbn zeta. rewrite loop_done by (cbn; lia). reflexivity.
Qed.

(** The error [runChecks] returns is nil. *)
Lemma runChecks_error_nil cfg u tr s err tr' :
  runChecks net url_Parse cfg u tr = (Returned (s, err), tr') -> err = None.
Proof.
  unfold runChecks. rewrite runChecks_fuel_unfold.
  destruct (start_ticker cfg); try discriminate.
  cbn zeta. destruct (fst _); [| discriminate].
  by intros [= _ <- _].
Qed.

(** A ticker panic ends [runChecks] before the loop. *)
Lemma runChecks_panics cfg u tr reason :
  start_ticker cfg = Panicked reason ->
  runChecks net url_Parse cfg u tr = (Panicked reason, tr ++ [begin_event]).
Proof.
  intros H. unfold runChecks. by rewrite runChecks_fuel_unfold, H.
Qed.

(** The loop invariant holds at every loop-head state. *)
Lemma loop_reaches_inv cfg u ticker tr0 s tr :
  GoInt.in_int (Count cfg) -> 0 <= Count cfg ->
  loop_reaches net url_Parse cfg u ticker (zero_summary, tr0) (s, tr) ->
  summary_inv cfg s.
Proof.
  intros Hc H0 H.
  remember (zero_summary, tr0) as st0 eqn:E0.
  remember (s, tr) as st eqn:E. revert s tr E.
  induction H as [| s1 tr1 _ IH Hlt]; intros s tr E.
  - subst. injection E as <- _. by apply summary_inv_zero.
  - rewrite loop_body_unfold in E. injection E as <- _.
    apply next_summary_counts; [assumption | by eapply IH | assumption].
Qed.

End RunFacts.

(** C1. For a configuration with a non-negative count, a run that
    completes returns a summary with
    [ChecksRan = ChecksPassed + ChecksFailed = Count], and the run does
    complete, with a nil error, whenever the ticker starts. At every head of
    the loop [ChecksRan = ChecksPassed + ChecksFailed] and
    [ChecksRan <= Count] hold, and an iteration adds one to [ChecksRan] and
    one to exactly one of [ChecksPassed] and [ChecksFailed]. *)
Theorem runChecks_counts_every_check
    (net : Trace -> NetCall -> Response + NetError)
    (url_Parse : string -> option URL)
    (cfg : CheckConfig) (u : URL) (tr : Trace) :
  GoInt.in_int (Count cfg) -> 0 <= Count cfg ->
  (forall s err tr',
     runChecks net url_Parse cfg u tr = (Returned (s, err), tr') ->
     ChecksRan s = ChecksPassed s + ChecksFailed s /\
     ChecksRan s = Count cfg) /\
  (forall ticker, start_ticker cfg = Returned ticker ->
     exists s tr',
       runChecks net url_Parse cfg u tr = (Returned (s, None), tr') /\
       loop_reaches net url_Parse cfg u ticker
         (zero_summary, tr ++ [begin_event]) (s, tr')) /\
  (forall ticker s tr',
     loop_reaches net url_Parse cfg u ticker
       (zero_summary, tr ++ [begin_event]) (s, tr') ->
     ChecksRan s = ChecksPassed s + ChecksFailed s /\
     ChecksRan s <= Count cfg /\
     (ChecksRan s < Count cfg ->
      counts_one s (fst (loop_body net url_Parse cfg u ticker s tr')))).
Proof.
  intros Hc H0. split; [| split].
  - intros s err tr' Hrun.
    destruct (start_ticker cfg) as [ticker | reason |] eqn:Ht.
    + destruct (runChecks_returns net url_Parse cfg u tr ticker Hc H0 Ht)
        as (s1 & evs & Hrun1 & Hinv & Hcount & _).
      rewrite Hrun1 in Hrun. injection Hrun as -> _ _.
      split; [apply Hinv | exact Hcount].
    + rewrite (runChecks_panics net url_Parse cfg u tr reason Ht) in Hrun.
      discriminate Hrun.
    + unfold start_ticker in Ht.
      destruct (0 <? Seconds cfg); [| discriminate].
      destruct (time.NewTicker _); discriminate.
  - intros ticker Ht.
    destruct (runChecks_returns net url_Parse cfg u tr ticker Hc H0 Ht)
      as (s & evs & Hrun & _ & _ & Hreach & _).
    by exists s, (tr ++ begin_event :: evs).
  - intros ticker s tr' Hreach.
    pose proof (loop_reaches_inv net url_Parse cfg u ticker _ s tr' Hc H0 Hreach)
      as Hinv.
    split; [apply Hinv |]. split; [apply Hinv |].
    intros Hlt. rewrite loop_body_unfold. cbn [fst].
    by apply next_summary_counts.
Qed.

Lemma runChecks_counts_every_check_witness :
  runChecks no_net parse_any three_checks url_x []
  = (Returned (mkCheckSummary 3 3 0, None),
     snd (runChecks no_net parse_any three_checks
            url_x [])) /\
  3 = 3 + 0 /\ 3 = Count three_checks.
Proof.
  assert (Hc : GoInt.in_int (Count three_checks)) by (vm_compute; split; discriminate).
  assert (H0 : 0 <= Count three_checks) by (vm_compute; discriminate).
  destruct (runChecks_counts_every_check no_net parse_any three_checks
              url_x [] Hc H0) as (Hret & _).
  split; [vm_compute; reflexivity |].
  apply (Hret (mkCheckSummary 3 3 0) None
           (snd (runChecks no_net parse_any three_checks
                   url_x []))).
  vm_compute. reflexivity.
Defined.

(* ===================================================================== *)
(** * Pacing *)
(* ===================================================================== *)

Lemma paced_count_ticks (n : nat) (evs : list Event) :
  paced n evs -> count_ticks evs = n.
Proof.
  induction 1 as [| n evs rest Hnt _ _ IH]; [reflexivity |].
  rewrite count_ticks_app, (count_ticks_none evs Hnt).
  unfold count_ticks in *. rewrite filter_cons_True by reflexivity.
  cbn. by rewrite IH.
Qed.

Lemma paced_last (n : nat) (evs : list Event) :
  paced (S n) evs -> last evs = Some EvTick.
Proof.
  remember (S n) as m eqn:E. intros H. revert n E.
  induction H as [| m evs rest _ _ Hrest IH]; intros n E; [discriminate |].
  rewrite last_app_cons, last_cons.
  destruct Hrest as [| k evs' rest']; [reflexivity |].
  by rewrite (IH k eq_refl).
Qed.

(** C7. With a positive delay the loop waits on the ticker at the end of
    every iteration, whatever the call returned (a dispatch error, another
    status code, the expected one): the events of a run that returns are
    [Count] iterations, each at most one HTTP call and log lines followed by
    one wait, so the run ends on a wait, after the last request. With a
    delay of zero, or less, nothing waits. *)
Theorem loop_waits_after_every_request
    (net : Trace -> NetCall -> Response + NetError)
    (url_Parse : string -> option URL)
    (cfg : CheckConfig) (u : URL) (tr : Trace) :
  GoInt.in_int (Count cfg) ->
  (0 < Seconds cfg ->
   (forall t, start_ticker cfg = Returned (Some t) ->
      forall s tr0,
        let call := callAPI net url_Parse
                      (mkAPIRequest u (RequestType cfg) (RequestBody cfg)) tr0 in
        snd (loop_body net url_Parse cfg u (Some t) s tr0)
        = snd call ++ [iteration_log cfg u (fst call); EvTick]) /\
   (forall s err tr',
      runChecks net url_Parse cfg u tr = (Returned (s, err), tr') ->
      exists evs,
        tr' = tr ++ begin_event :: evs /\
        paced (Z.to_nat (Count cfg)) evs /\
        count_ticks evs = Z.to_nat (Count cfg) /\
        (0 < Count cfg -> last evs = Some EvTick))) /\
  (Seconds cfg <= 0 ->
   exists s evs,
     runChecks net url_Parse cfg u tr = (Returned (s, None), tr ++ evs) /\
     count_ticks evs = 0%nat).
Proof.
  intros Hc. split.
  - intros Hsec. split.
    + intros t Ht s tr0. cbn zeta. rewrite loop_body_unfold. cbn [snd].
      destruct (start_ticker_cases cfg)
        as [(_ & H) | [(_ & _ & t' & H & Harmed) | (_ & _ & H)]];
        rewrite H in Ht; try discriminate Ht.
      injection Ht as <-. by rewrite Harmed.
    + intros s err tr' Hrun.
      destruct (start_ticker_cases cfg)
        as [(Hle & _) | [(_ & _ & t & Ht & Harmed) | (_ & _ & Hp)]]; [lia | |].
      * destruct (Z.le_gt_cases 0 (Count cfg)) as [H0 | Hneg].
        -- destruct (runChecks_returns net url_Parse cfg u tr (Some t) Hc H0 Ht)
             as (s1 & evs & Hrun1 & _ & _ & _ & Hevs).
           rewrite Hrun1 in Hrun. injection Hrun as _ _ <-.
           unfold run_events in Hevs. rewrite Harmed in Hevs.
           cbn [zero_summary ChecksRan] in Hevs. rewrite Z.sub_0_r in Hevs.
           exists evs. split; [reflexivity |]. split; [exact Hevs |].
           split; [by apply paced_count_ticks |].
           intros Hpos.
           apply (paced_last (Nat.pred (Z.to_nat (Count cfg)))).
           by replace (S (Nat.pred (Z.to_nat (Count cfg))))
             with (Z.to_nat (Count cfg)) by lia.
        -- rewrite runChecks_no_iterations, Ht in Hrun by lia.
           injection Hrun as _ _ <-.
           exists []. replace (Z.to_nat (Count cfg)) with 0%nat by lia.
           repeat split; [constructor | lia].
      * rewrite (runChecks_panics net url_Parse cfg u tr _ Hp) in Hrun.
        discriminate Hrun.
  - intros Hsec.
    destruct (start_ticker_cases cfg)
      as [(_ & Ht) | [(Hpos & _) | (Hpos & _)]]; try lia.
    destruct (Z.le_gt_cases 0 (Count cfg)) as [H0 | Hneg].
    + destruct (runChecks_returns net url_Parse cfg u tr None Hc H0 Ht)
        as (s & evs & Hrun & _ & _ & _ & Hevs).
      exists s, (begin_event :: evs). split; [exact Hrun |].
      unfold run_events in Hevs. cbn [armed] in Hevs.
      unfold count_ticks in *. by rewrite filter_cons_False by discriminate.
    + exists zero_summary, [begin_event].
      rewrite runChecks_no_iterations, Ht by lia. split; reflexivity.
Qed.

Lemma loop_waits_after_every_request_witness :
  snd (runChecks no_net parse_any two_paced_checks url_x [])
  = [begin_event;
     EvNet (HttpGet "http://x");
     iteration_log two_paced_checks url_x (inl (mkResponse 200)); EvTick;
     EvNet (HttpGet "http://x");
     iteration_log two_paced_checks url_x (inl (mkResponse 200)); EvTick] /\
  exists evs,
    snd (runChecks no_net parse_any two_paced_checks url_x [])
    = [] ++ begin_event :: evs /\
    paced (Z.to_nat (Count two_paced_checks)) evs /\
    count_ticks evs = Z.to_nat (Count two_paced_checks) /\
    (0 < Count two_paced_checks -> last evs = Some EvTick).
Proof.
  assert (Hc : GoInt.in_int (Count two_paced_checks))
    by (vm_compute; split; discriminate).
  assert (Hsec : 0 < Seconds two_paced_checks) by reflexivity.
  destruct (loop_waits_after_every_request no_net parse_any two_paced_checks
              url_x [] Hc) as [Hpaced _].
  destruct (Hpaced Hsec) as [_ Hrun].
  split; [vm_compute; reflexivity |].
  apply (Hrun (mkCheckSummary 2 2 0) None). vm_compute. reflexivity.
Defined.

(* ===================================================================== *)
(** * A delay whose duration wraps *)
(* ===================================================================== *)

(** 9223372037 seconds are more than [2^63 - 1] nanoseconds: the product
    [time.Duration(cfg.Seconds) * time.Second] is negative. *)
Lemma overflowing_seconds_wrap :
  GoInt.in_int overflowing_seconds /\
  GoInt.mul overflowing_seconds time.Second = -9223372036709551616.
Proof. split; [split; discriminate | reflexivity]. Qed.

Lemma long_delay_panics (count : Z) :
  start_ticker (long_delay count)
  = Panicked "non-positive interval for NewTicker".
Proof. reflexivity. Qed.

(** [parseConfig] accepts such a delay, with any count that converts. *)
Lemma long_delay_is_accepted (count : string) (z : Z) :
  strconv.Atoi count = inl z ->
  parseConfig (long_delay_env count) = inl (long_delay z).
Proof.
  intros Hz. rewrite parseConfig_reads. unfold long_delay_env.
  rewrite Getenv_insert_eq. cbn [String.length Nat.eqb String.prefix negb].
  replace (read_int _ "COUNT") with (@inl _ ConfigError (Some z)).
  2:{ symmetry. apply read_int_value.
      by rewrite Getenv_insert_ne, Getenv_insert_eq. }
  reflexivity.
Qed.

(** C6, at a configuration where the code does not do what the claim says.
    [runChecks] does not return for every configuration: with
    SECONDS=9223372037, which [parseConfig] accepts, the duration of the
    ticker wraps to a negative number, [time.NewTicker] panics, and
    [runChecks] ends after its first log line, before any request. *)
Theorem runChecks_panics_on_wrapped_delay
    (net : Trace -> NetCall -> Response + NetError)
    (url_Parse : string -> option URL) (u : URL) (tr : Trace) :
  parseConfig (long_delay_env "3") = inl (long_delay 3) /\
  runChecks net url_Parse (long_delay 3) u tr
  = (Panicked "non-positive interval for NewTicker", tr ++ [begin_event]).
Proof.
  split; [by apply long_delay_is_accepted |].
  apply runChecks_panics, long_delay_panics.
Qed.

(** C8, at a configuration where the code does not do what the claim says.
    With COUNT=0 and SECONDS=9223372037 [runChecks] makes no call to
    [callAPI], but it does not return the zero summary: it panics in
    [time.NewTicker]. *)
Theorem runChecks_zero_count_wrapped_delay
    (net : Trace -> NetCall -> Response + NetError)
    (url_Parse : string -> option URL) (u : URL) (tr : Trace) :
  parseConfig (long_delay_env "0") = inl (long_delay 0) /\
  runChecks net url_Parse (long_delay 0) u tr
  = (Panicked "non-positive interval for NewTicker", tr ++ [begin_event]).
Proof.
  split; [by apply long_delay_is_accepted |].
  apply runChecks_panics, long_delay_panics.
Qed.

(** C9, at a configuration where the code does not do what the claim says.
    With COUNT=-1 and SECONDS=9223372037, both accepted by [parseConfig],
    [runChecks] makes no call to [callAPI], but it does not return the zero
    summary: it panics in [time.NewTicker]. *)
Theorem runChecks_negative_count_wrapped_delay
    (net : Trace -> NetCall -> Response + NetError)
    (url_Parse : string -> option URL) (u : URL) (tr : Trace) :
  parseConfig (long_delay_env "-1") = inl (long_delay (-1)) /\
  runChecks net url_Parse (long_delay (-1)) u tr
  = (Panicked "non-positive interval for NewTicker", tr ++ [begin_event]).
Proof.
  split; [by apply long_delay_is_accepted |].
  apply runChecks_panics, long_delay_panics.
Qed.

(** What holds of the three claims on the code: when the ticker starts,
    [runChecks] returns a nil error; a dispatch error only counts a failed
    check; and a count of zero or less gives the zero summary with no
    event but the first log line. *)
Lemma runChecks_when_ticker_starts
    (net : Trace -> NetCall -> Response + NetError)
    (url_Parse : string -> option URL)
    (cfg : CheckConfig) (u : URL) (tr : Trace) (ticker : option time.Ticker) :
  GoInt.in_int (Count cfg) ->
  start_ticker cfg = Returned ticker ->
  (exists s tr', runChecks net url_Parse cfg u tr = (Returned (s, None), tr')) /\
  (Count cfg <= 0 ->
   runChecks net url_Parse cfg u tr
   = (Returned (zero_summary, None), tr ++ [begin_event])).
Proof.
  intros Hc Ht. split.
  - destruct (Z.le_gt_cases 0 (Count cfg)) as [H0 | Hneg].
    + destruct (runChecks_returns net url_Parse cfg u tr ticker Hc H0 Ht)
        as (s & evs & Hrun & _).
      eauto.
    + exists zero_summary, (tr ++ [begin_event]).
      by rewrite runChecks_no_iterations, Ht by lia.
  - intros Hle. by rewrite runChecks_no_iterations, Ht by lia.
Qed.

(** A negative count reaches the loop: [parseConfig] does not reject it. *)
Lemma negative_count_is_accepted :
  parseConfig (<["COUNT" := "-5"]> {["CHECK_URL" := "http://x"]})
  = inl (mkCheckConfig "http://x" (-5) 0 100 "GET" "{}" 200).
Proof. vm_compute. reflexivity. Qed.

(* ===================================================================== *)
(** * The passing threshold *)
(* ===================================================================== *)

Section ThresholdFacts.

Implicit Types (f x y : spec_float) (cfg : CheckConfig).












Lemma verdict_ok_iff cfg (u : URL) (required : Z) (summary : checkSummary) :
  verdict_ok cfg u required summary = true <-> ChecksPassed summary >= required.
Proof.
  unfold verdict_ok, verdict.
  destruct (Z.ltb_spec (ChecksPassed summary) required); split;
    intros; try reflexivity; try discriminate; lia.
Qed.

End ThresholdFacts.

(** [passInt] depends on the percent and the count only. *)
Lemma passInt_required_in (cfg : CheckConfig) (r : Z) :
  passInt cfg = Some r ->
  required_in float32.prec float32.emax (PassingPercent cfg) (Count cfg) = Some r.
Proof.
  unfold passInt, float32.to_int, required_in, passingScore.
  unfold float32.mul, float32.div, float32.of_int.
  destruct (float32.truncate _) as [z |]; [| discriminate].
  destruct (GoInt.in_intb z); [| discriminate].
  by intros [= <-].
Qed.

(** Known rounding. 53 percent of 100 checks requires 52 passes in
    binary32, the format of the source; in binary64 the same formula gives
    53. *)
Example required_53_of_100 :
  passInt (mkCheckConfig "http://x" 100 0 53 "GET" "{}" 200) = Some 52 /\
  required_in 53 1024 53 100 = Some 53 /\
  53 * 100 / 100 = 53.
Proof. repeat split; vm_compute; reflexivity. Qed.

Lemma threshold_close_spec (percents counts : nat) :
  threshold_close percents counts = true ->
  forall cfg,
    0 <= PassingPercent cfg < Z.of_nat percents ->
    0 <= Count cfg < Z.of_nat counts ->
    exists r,
      passInt cfg = Some r /\
      PassingPercent cfg * Count cfg / 100 - 1 <= r
        <= PassingPercent cfg * Count cfg / 100.
Proof.
  unfold threshold_close. intros Hall cfg Hp Hc.
  rewrite forallb_forall in Hall.
  specialize (Hall (Z.to_nat (PassingPercent cfg))).
  rewrite forallb_forall in Hall.
  assert (Hall' := Hall ltac:(apply in_seq; lia) (Z.to_nat (Count cfg))
                     ltac:(apply in_seq; lia)).
  clear Hall. rewrite !Z2Nat.id in Hall' by lia.
  replace (passInt (mkCheckConfig "" (Count cfg) 0 (PassingPercent cfg) "" "" 0))
    with (passInt cfg) in Hall' by reflexivity.
  destruct (passInt cfg) as [r |]; [| discriminate].
  exists r. split; [reflexivity | lia].
Qed.

(** Up to 100 percent and 500 checks the threshold is defined and is the
    exact [floor (percent * count / 100)] or one less. *)
Lemma passInt_close_to_exact (cfg : CheckConfig) :
  0 <= PassingPercent cfg <= 100 -> 0 <= Count cfg <= 500 ->
  exists r,
    passInt cfg = Some r /\
    PassingPercent cfg * Count cfg / 100 - 1 <= r
      <= PassingPercent cfg * Count cfg / 100.
Proof.
  intros Hp Hc. apply (threshold_close_spec 101 501); [| lia | lia].
  vm_compute. reflexivity.
Qed.




(* ===================================================================== *)
(** * Examples *)
(* ===================================================================== *)

Example atoi_examples :
  strconv.Atoi "10" = inl 10 /\ strconv.Atoi "-7" = inl (-7) /\
  strconv.Atoi "+0" = inl 0 /\ strconv.Atoi "" = inr strconv.ErrSyntax /\
  strconv.Atoi "1x" = inr strconv.ErrSyntax /\
  strconv.Atoi "9223372036854775807" = inl GoInt.int_max /\
  strconv.Atoi "9223372036854775808" = inr strconv.ErrRange /\
  strconv.Atoi "-9223372036854775808" = inl GoInt.int_min.
Proof. repeat split; vm_compute; reflexivity. Qed.

Example parseConfig_example :
  parseConfig (<["CHECK_URL" := "https://example.com"]>
               (<["COUNT" := "10"]> (<["SECONDS" := "1"]> ∅)))
  = inl (mkCheckConfig "https://example.com" 10 1 100 "GET" "{}" 200).
Proof. vm_compute. reflexivity. Qed.

Example parseConfig_bad_count :
  parseConfig (<["CHECK_URL" := "http://x"]> (<["COUNT" := "ten"]> ∅))
  = inr (ErrConvert "COUNT" strconv.ErrSyntax).
Proof. vm_compute. reflexivity. Qed.

Example passInt_examples :
  passInt (mkCheckConfig "http://x" 3 0 50 "GET" "{}" 200) = Some 1 /\
  passInt (mkCheckConfig "http://x" 4 0 75 "GET" "{}" 200) = Some 3 /\
  passInt (mkCheckConfig "http://x" 10 0 100 "GET" "{}" 200) = Some 10 /\
  passInt (mkCheckConfig "http://x" 0 0 100 "GET" "{}" 200) = Some 0 /\
  passInt (mkCheckConfig "http://x" 3 0 (-50) "GET" "{}" 200) = Some (-1).
Proof. repeat split; vm_compute; reflexivity. Qed.

(** Ten checks that all fail: the summary counts them, the error is nil. *)
Example runChecks_all_fail :
  fst (runChecks (fun _ _ => inr "connection refused") parse_any
         (mkCheckConfig "http://x" 10 0 100 "GET" "{}" 200) url_x [])
  = Returned (mkCheckSummary 10 0 10, None).
Proof. vm_compute. reflexivity. Qed.

(** An unsupported method: every check fails without an HTTP call. *)
Example runChecks_head :
  runChecks no_net parse_any
    (mkCheckConfig "http://x" 2 0 100 "HEAD" "{}" 200) url_x []
  = (Returned (mkCheckSummary 2 0 2, None),
     [begin_event;
      EvLog LevelError [LStr "Failed to reach URL:"; LStr "http://x"];
      EvLog LevelError [LStr "Failed to reach URL:"; LStr "http://x"]]).
Proof. vm_compute. reflexivity. Qed.

(* ===================================================================== *)
(** * More on the configuration *)
(* ===================================================================== *)

Lemma read_int_inl_iff (env : Env) (name : string) :
  (exists o, read_int env name = inl o) <->
  Getenv env name = "" \/ exists z, strconv.Atoi (Getenv env name) = inl z.
Proof.
  unfold read_int. destruct (Getenv env name) as [| c v] eqn:E.
  - cbn. split; eauto.
  - cbn [String.length Nat.eqb].
    destruct (strconv.Atoi (String c v)) as [z | err]; split.
    + intros _. right. eauto.
    + eauto.
    + intros [o H]. discriminate H.
    + intros [H | [z H]]; discriminate H.
Qed.

Lemma read_int_inr_iff (env : Env) (name name' : string)
    (cause : strconv.NumError) :
  read_int env name = inr (ErrConvert name' cause) <->
  name' = name /\ Getenv env name <> "" /\
  strconv.Atoi (Getenv env name) = inr cause.
Proof.
  unfold read_int. destruct (Getenv env name) as [| c v] eqn:E.
  - cbn. split; [discriminate | intros (_ & H & _); congruence].
  - cbn [String.length Nat.eqb].
    destruct (strconv.Atoi (String c v)) as [z | err]; split.
    + discriminate.
    + intros (_ & _ & H). discriminate H.
    + intros [= <- <-]. repeat split. discriminate.
    + intros (-> & _ & [= ->]). reflexivity.
Qed.

Lemma read_int_ok (env : Env) (name : string) :
  (exists o, read_int env name = inl o) <-> converts_or_empty env name.
Proof. apply read_int_inl_iff. Qed.

(** X1. [parseConfig] accepts an environment exactly when CHECK_URL starts
    with [http] and each of COUNT, SECONDS, PASSING_PERCENT and
    EXPECTED_STATUS_CODE is empty or converts with [strconv.Atoi];
    REQUEST_TYPE and REQUEST_BODY play no part in it. *)
Theorem parseConfig_accepts_iff (env : Env) :
  (exists cfg, parseConfig env = inl cfg) <->
  String.prefix "http" (Getenv env "CHECK_URL") = true /\
  Forall (converts_or_empty env) numeric_variables.
Proof.
  rewrite parseConfig_reads. unfold numeric_variables.
  rewrite !Forall_cons, Forall_nil, <- !read_int_ok.
  destruct (Getenv env "CHECK_URL") as [| c url] eqn:Hurl.
  { cbn. split; [intros [cfg H]; discriminate H | intros [H _]; discriminate H]. }
  cbn [String.length Nat.eqb].
  destruct (String.prefix "http" (String c url));
    [cbn [negb] | cbn; split; [intros [cfg H]; discriminate H
                              | intros [H _]; discriminate H]].
  destruct (read_int env "COUNT") as [count | e1]; cbn [bindE];
    [| split; [intros [cfg H]; discriminate H
              | intros (_ & [o H] & _); discriminate H]].
  destruct (read_int env "SECONDS") as [seconds | e2]; cbn [bindE];
    [| split; [intros [cfg H]; discriminate H
              | intros (_ & _ & [o H] & _); discriminate H]].
  destruct (read_int env "PASSING_PERCENT") as [passing | e3]; cbn [bindE];
    [| split; [intros [cfg H]; discriminate H
              | intros (_ & _ & _ & [o H] & _); discriminate H]].
  destruct (read_int env "EXPECTED_STATUS_CODE") as [status | e4]; cbn [bindE];
    [| split; [intros [cfg H]; discriminate H
              | intros (_ & _ & _ & _ & [o H] & _); discriminate H]].
  split; [| eauto]. intros _. repeat split; eauto.
Qed.

(** X2. [parseConfig] fails with the conversion error of a variable exactly
    when CHECK_URL is valid, the numeric variables before it in the order
    COUNT, SECONDS, PASSING_PERCENT, EXPECTED_STATUS_CODE are fine, and its
    own value is not empty and does not convert, with that cause: the first
    bad number is the one reported. *)
Theorem parseConfig_reports_first_bad_number
    (env : Env) (name : string) (cause : strconv.NumError) :
  parseConfig env = inr (ErrConvert name cause) <->
  String.prefix "http" (Getenv env "CHECK_URL") = true /\
  exists before after,
    numeric_variables = before ++ name :: after /\
    Forall (converts_or_empty env) before /\
    Getenv env name <> "" /\
    strconv.Atoi (Getenv env name) = inr cause.
Proof.
  rewrite parseConfig_reads. unfold numeric_variables.
  destruct (Getenv env "CHECK_URL") as [| c url] eqn:Hurl.
  { cbn. split; [discriminate | intros [H _]; discriminate H]. }
  cbn [String.length Nat.eqb].
  destruct (String.prefix "http" (String c url));
    [cbn [negb] | cbn; split; [discriminate | intros [H _]; discriminate H]].
  split.
  - intros H. split; [reflexivity |].
    destruct (read_int env "COUNT") as [count | e1] eqn:E1; cbn [bindE] in H.
    2:{ injection H as ->. apply read_int_inr_iff in E1 as (-> & Hne & Ha).
        exists [], ["SECONDS"; "PASSING_PERCENT"; "EXPECTED_STATUS_CODE"].
        split; [reflexivity |]. split; [constructor |]. by split. }
    destruct (read_int env "SECONDS") as [seconds | e2] eqn:E2; cbn [bindE] in H.
    2:{ injection H as ->. apply read_int_inr_iff in E2 as (-> & Hne & Ha).
        exists ["COUNT"], ["PASSING_PERCENT"; "EXPECTED_STATUS_CODE"].
        split; [reflexivity |]. split; [| by split].
        repeat (apply Forall_cons; split; [apply read_int_ok; eauto |]).
        constructor. }
    destruct (read_int env "PASSING_PERCENT") as [passing | e3] eqn:E3;
      cbn [bindE] in H.
    2:{ injection H as ->. apply read_int_inr_iff in E3 as (-> & Hne & Ha).
        exists ["COUNT"; "SECONDS"], ["EXPECTED_STATUS_CODE"].
        split; [reflexivity |]. split; [| by split].
        repeat (apply Forall_cons; split; [apply read_int_ok; eauto |]).
        constructor. }
    destruct (read_int env "EXPECTED_STATUS_CODE") as [status | e4] eqn:E4;
      cbn [bindE] in H; [discriminate H |].
    injection H as ->. apply read_int_inr_iff in E4 as (-> & Hne & Ha).
    exists ["COUNT"; "SECONDS"; "PASSING_PERCENT"], [].
    split; [reflexivity |]. split; [| by split].
    repeat (apply Forall_cons; split; [apply read_int_ok; eauto |]).
    constructor.
  - intros (_ & before & after & Hsplit & Hbefore & Hne & Ha).
    assert (Hbad : read_int env name = inr (ErrConvert name cause))
      by (by apply read_int_inr_iff).
    destruct before as [| b1 before]; cbn [app] in Hsplit.
    { injection Hsplit as <- _. by rewrite Hbad. }
    injection Hsplit as <- Hsplit.
    apply Forall_cons in Hbefore as [[o1 ->]%read_int_ok Hbefore]. cbn [bindE].
    destruct before as [| b2 before]; cbn [app] in Hsplit.
    { injection Hsplit as <- _. by rewrite Hbad. }
    injection Hsplit as <- Hsplit.
    apply Forall_cons in Hbefore as [[o2 ->]%read_int_ok Hbefore]. cbn [bindE].
    destruct before as [| b3 before]; cbn [app] in Hsplit.
    { injection Hsplit as <- _. by rewrite Hbad. }
    injection Hsplit as <- Hsplit.
    apply Forall_cons in Hbefore as [[o3 ->]%read_int_ok Hbefore]. cbn [bindE].
    destruct before as [| b4 before]; cbn [app] in Hsplit.
    { injection Hsplit as <- _. by rewrite Hbad. }
    injection Hsplit as _ Hsplit. by destruct before.
Qed.

Lemma read_int_Some (env : Env) (name : string) (o : option Z) :
  read_int env name = inl o -> Getenv env name <> "" ->
  exists z, o = Some z /\ strconv.Atoi (Getenv env name) = inl z.
Proof.
  unfold read_int. destruct (Getenv env name) as [| c v]; [congruence |].
  cbn [String.length Nat.eqb].
  destruct (strconv.Atoi _) as [z |]; [| discriminate].
  intros [= <-] _. eauto.
Qed.

Lemma read_string_Some (env : Env) (name : string) :
  Getenv env name <> "" -> read_string env name = Some (Getenv env name).
Proof.
  unfold read_string. destruct (Getenv env name); [congruence | reflexivity].
Qed.

(** X3. The fields of an accepted configuration are the values of the
    environment as they stand: a numeric field is the [int] its variable
    converts to (zero alone is replaced, in PASSING_PERCENT and
    EXPECTED_STATUS_CODE), a string field is its variable unchanged; every
    numeric field is in the range of [int]. *)
Theorem accepted_fields_are_the_values (env : Env) (cfg : CheckConfig) :
  parseConfig env = inl cfg ->
  wf_config cfg /\
  (Getenv env "COUNT" <> "" ->
   strconv.Atoi (Getenv env "COUNT") = inl (Count cfg)) /\
  (Getenv env "SECONDS" <> "" ->
   strconv.Atoi (Getenv env "SECONDS") = inl (Seconds cfg)) /\
  (Getenv env "PASSING_PERCENT" <> "" ->
   exists z, strconv.Atoi (Getenv env "PASSING_PERCENT") = inl z /\
             PassingPercent cfg = if z =? 0 then 100 else z) /\
  (Getenv env "EXPECTED_STATUS_CODE" <> "" ->
   exists z, strconv.Atoi (Getenv env "EXPECTED_STATUS_CODE") = inl z /\
             ExpectedStatusCode cfg = if z =? 0 then 200 else z) /\
  (Getenv env "REQUEST_TYPE" <> "" ->
   RequestType cfg = Getenv env "REQUEST_TYPE") /\
  (Getenv env "REQUEST_BODY" <> "" ->
   RequestBody cfg = Getenv env "REQUEST_BODY").
Proof.
  intros H. split; [by apply (parseConfig_wf env) |].
  destruct (parseConfig_inl_fields env cfg H)
    as (count & seconds & passing & status & Hc & Hs & Hp & He
        & Hcount & Hseconds & Hpassing & Htype & Hbody & Hstatus).
  split; [| split; [| split; [| split; [| split]]]]; intros Hne.
  - destruct (read_int_Some _ _ _ Hc Hne) as (z & -> & Hz).
    by rewrite Hcount, Hz.
  - destruct (read_int_Some _ _ _ Hs Hne) as (z & -> & Hz).
    by rewrite Hseconds, Hz.
  - destruct (read_int_Some _ _ _ Hp Hne) as (z & -> & Hz).
    exists z. by rewrite Hpassing.
  - destruct (read_int_Some _ _ _ He Hne) as (z & -> & Hz).
    exists z. by rewrite Hstatus.
  - by rewrite Htype, read_string_Some.
  - by rewrite Hbody, read_string_Some.
Qed.

Lemma accepted_fields_are_the_values_witness :
  parseConfig sample_env
  = inl (mkCheckConfig "https://example.com" (-5) 0 250 "get" "{}" 200) /\
  wf_config (mkCheckConfig "https://example.com" (-5) 0 250 "get" "{}" 200).
Proof.
  assert (H : parseConfig sample_env
              = inl (mkCheckConfig "https://example.com" (-5) 0 250 "get" "{}" 200))
    by (vm_compute; reflexivity).
  split; [exact H |].
  apply (accepted_fields_are_the_values sample_env _ H).
Defined.

(** X4. [parseConfig] reads CHECK_URL, COUNT, SECONDS, PASSING_PERCENT,
    REQUEST_TYPE, REQUEST_BODY and EXPECTED_STATUS_CODE and nothing else:
    two environments that agree on these seven give the same result. *)
Theorem parseConfig_reads_seven_variables (env env' : Env) :
  (forall name, In name config_variables -> Getenv env name = Getenv env' name) ->
  parseConfig env = parseConfig env'.
Proof.
  intros H. rewrite !parseConfig_reads.
  assert (Hin : forall name, In name config_variables ->
                  read_int env name = read_int env' name /\
                  read_string env name = read_string env' name).
  { intros name Hname. split;
      [apply read_int_ext | apply read_string_ext]; by apply H. }
  rewrite (H "CHECK_URL") by (cbn; tauto).
  rewrite (proj1 (Hin "COUNT" ltac:(cbn; tauto))),
    (proj1 (Hin "SECONDS" ltac:(cbn; tauto))),
    (proj1 (Hin "PASSING_PERCENT" ltac:(cbn; tauto))),
    (proj1 (Hin "EXPECTED_STATUS_CODE" ltac:(cbn; tauto))),
    (proj2 (Hin "REQUEST_TYPE" ltac:(cbn; tauto))),
    (proj2 (Hin "REQUEST_BODY" ltac:(cbn; tauto))).
  reflexivity.
Qed.

Lemma parseConfig_reads_seven_variables_witness :
  parseConfig (<["KH_RUN_UUID" := "1234"]> sample_env) = parseConfig sample_env.
Proof.
  apply parseConfig_reads_seven_variables.
  intros name Hname. apply Getenv_insert_ne.
  cbn in Hname.
  destruct Hname as [<- | [<- | [<- | [<- | [<- | [<- | [<- | []]]]]]]];
    discriminate.
Defined.

(* ===================================================================== *)
(** * More on dispatch *)
(* ===================================================================== *)

(** A response [callAPI] returns was the reply to an HTTP call. *)
Lemma callAPI_response_origin
    (net : Trace -> NetCall -> Response + NetError)
    (url_Parse : string -> option URL)
    (request : APIRequest) (tr : Trace) (response : Response) :
  fst (callAPI net url_Parse request tr) = inl response ->
  exists call, net tr call = inl response.
Proof.
  unfold callAPI, bind, http_Get, http_DefaultClient_Do, ret.
  destruct (String.eqb _ http.MethodGet).
  - destruct (net tr (HttpGet _)) as [r | err] eqn:E; cbn; [| discriminate].
    intros [= <-]. eauto.
  - destruct (_ || _); [| discriminate].
    destruct (http_NewRequest _ _ _ _) as [req | err]; [| discriminate].
    destruct (net tr (ClientDo req)) as [r | err'] eqn:E; cbn; [| discriminate].
    intros [= <-]. eauto.
Qed.

(** X5. [callAPI] does not judge a response: what it returns as a response
    is the reply of the one HTTP call it made, whatever the status code;
    and every error it returns carries the redacted URL of the request. *)
Theorem callAPI_passes_replies_on
    (net : Trace -> NetCall -> Response + NetError)
    (url_Parse : string -> option URL)
    (request : APIRequest) (tr : Trace) :
  match fst (callAPI net url_Parse request tr) with
  | inl response =>
      exists call,
        net tr call = inl response /\
        snd (callAPI net url_Parse request tr) = tr ++ [EvNet call]
  | inr err => redacted_of err = url_Redacted (URL_ request)
  end.
Proof.
  unfold callAPI, bind, http_Get, http_DefaultClient_Do, ret.
  destruct (String.eqb _ http.MethodGet).
  - destruct (net tr (HttpGet _)) as [response | err] eqn:E; cbn; eauto.
  - destruct (_ || _); [| reflexivity].
    destruct (http_NewRequest _ _ _ _) as [req | err]; [| reflexivity].
    destruct (net tr (ClientDo req)) as [response | err'] eqn:E; cbn; eauto.
Qed.

(* ===================================================================== *)
(** * More on the check loop *)
(* ===================================================================== *)

Section LoopInvariants.

Variable net : Trace -> NetCall -> Response + NetError.
Variable url_Parse : string -> option URL.

Implicit Types (cfg : CheckConfig) (u : URL) (ticker : option time.Ticker)
  (s : checkSummary) (tr : Trace).

(** A property of the loop-head states that the first has and an iteration
    keeps holds of all of them. *)
Lemma loop_reaches_invariant cfg u ticker start
    (P : checkSummary * Trace -> Prop) :
  P start ->
  (forall s tr,
     loop_reaches net url_Parse cfg u ticker start (s, tr) -> P (s, tr) ->
     ChecksRan s < Count cfg ->
     P (loop_body net url_Parse cfg u ticker s tr)) ->
  forall st, loop_reaches net url_Parse cfg u ticker start st -> P st.
Proof.
  intros H0 Hstep st H. induction H as [| s tr Hreach IH Hlt]; [exact H0 |].
  by apply Hstep.
Qed.

Lemma loop_reaches_summary_inv cfg u ticker tr0 st :
  GoInt.in_int (Count cfg) -> 0 <= Count cfg ->
  loop_reaches net url_Parse cfg u ticker (zero_summary, tr0) st ->
  summary_inv cfg (fst st).
Proof.
  intros Hc H0 H. destruct st as [s tr]. by eapply loop_reaches_inv.
Qed.

Lemma count_lines_app level (l1 l2 : list Event) :
  count_lines level (l1 ++ l2)
  = (count_lines level l1 + count_lines level l2)%nat.
Proof. unfold count_lines. by rewrite filter_app, length_app. Qed.

Lemma next_summary_passes cfg r s :
  next_summary cfg r s
  = if passes cfg r then incr_ChecksPassed (incr_ChecksRan s)
    else incr_ChecksFailed (incr_ChecksRan s).
Proof. by destruct r. Qed.

(** The events one iteration appends, counted. *)
Lemma iteration_counts cfg u ticker s tr :
  let r := fst (callAPI net url_Parse
                  (mkAPIRequest u (RequestType cfg) (RequestBody cfg)) tr) in
  exists evs,
    snd (loop_body net url_Parse cfg u ticker s tr) = tr ++ evs /\
    count_lines LevelInfo evs = (if passes cfg r then 1 else 0)%nat /\
    count_lines LevelError evs = (if passes cfg r then 0 else 1)%nat /\
    (count_net evs <= 1)%nat /\
    (forall response, r = inl response -> count_net evs = 1%nat).
Proof.
  cbn zeta. rewrite loop_body_unfold. cbn [snd].
  destruct (callAPI_trace net url_Parse
              (mkAPIRequest u (RequestType cfg) (RequestBody cfg)) tr)
    as (cevs & Hsnd & Hcevs).
  set (request := mkAPIRequest u (RequestType cfg) (RequestBody cfg)) in *.
  assert (Hresp : forall response,
            fst (callAPI net url_Parse request tr) = inl response ->
            exists call, cevs = [EvNet call]).
  { intros response Hr.
    unfold callAPI, bind, http_Get, http_DefaultClient_Do, ret in Hr, Hsnd.
    destruct (String.eqb _ http.MethodGet).
    - destruct (net tr (HttpGet _)); cbn in Hsnd;
        apply app_inv_head in Hsnd; eauto.
    - destruct (_ || _); [| discriminate Hr].
      destruct (http_NewRequest _ _ _ _) as [req |]; [| discriminate Hr].
      destruct (net tr (ClientDo req)); cbn in Hsnd;
        apply app_inv_head in Hsnd; eauto. }
  rewrite Hsnd.
  exists (cevs ++ iteration_log cfg u (fst (callAPI net url_Parse request tr))
            :: (if armed ticker then [EvTick] else [])).
  split; [by rewrite <- app_assoc |].
  destruct (fst (callAPI net url_Parse request tr)) as [response | err] eqn:Er.
  - destruct (Hresp response eq_refl) as [call ->].
    unfold count_lines, count_net, iteration_log, passes.
    destruct (StatusCode response =? ExpectedStatusCode cfg), (armed ticker);
      cbn; repeat split; intros; first [lia | reflexivity | discriminate].
  - unfold count_lines, count_net, iteration_log, passes.
    destruct Hcevs as [-> | [call ->]]; destruct (armed ticker);
      repeat split; intros; try discriminate;
      vm_compute; first [reflexivity | lia].
Qed.

End LoopInvariants.

Section RunInvariants.

Variable net : Trace -> NetCall -> Response + NetError.
Variable url_Parse : string -> option URL.

Implicit Types (cfg : CheckConfig) (u : URL) (ticker : option time.Ticker)
  (s : checkSummary) (tr : Trace).

(** A property of the summary and of the events of the loop so far that
    holds before the loop and is kept by an iteration holds of what
    [runChecks] returns. *)
Lemma runChecks_invariant cfg u tr ticker
    (P : checkSummary -> list Event -> Prop) :
  GoInt.in_int (Count cfg) -> 0 <= Count cfg ->
  start_ticker cfg = Returned ticker ->
  P zero_summary [] ->
  (forall s evs,
     summary_inv cfg s -> ChecksRan s < Count cfg -> P s evs ->
     forall evs1,
       snd (loop_body net url_Parse cfg u ticker s
              ((tr ++ [begin_event]) ++ evs))
       = ((tr ++ [begin_event]) ++ evs) ++ evs1 ->
       P (fst (loop_body net url_Parse cfg u ticker s
                 ((tr ++ [begin_event]) ++ evs))) (evs ++ evs1)) ->
  exists s evs,
    runChecks net url_Parse cfg u tr
    = (Returned (s, None), tr ++ begin_event :: evs) /\
    summary_inv cfg s /\ ChecksRan s = Count cfg /\ P s evs.
Proof.
  intros Hc H0 Ht Hinit Hstep.
  destruct (runChecks_returns net url_Parse cfg u tr ticker Hc H0 Ht)
    as (s & evs & Hrun & Hinv & Hcount & Hreach & _).
  exists s, evs. repeat split; try assumption; try apply Hinv.
  pose (Q := fun st : checkSummary * Trace =>
               summary_inv cfg (fst st) /\
               exists evs', snd st = (tr ++ [begin_event]) ++ evs' /\
                            P (fst st) evs').
  assert (HQ : Q (s, tr ++ begin_event :: evs)).
  { apply (loop_reaches_invariant net url_Parse cfg u ticker
             (zero_summary, tr ++ [begin_event]) Q); [| | exact Hreach].
    - split; [by apply summary_inv_zero |].
      exists []. split; [by rewrite app_nil_r | exact Hinit].
    - intros s1 tr1 _ (Hinv1 & evs1 & Htr1 & HP) Hlt.
      cbn [fst snd] in *. subst tr1.
      destruct (iteration_events net url_Parse cfg u ticker s1
                  ((tr ++ [begin_event]) ++ evs1)) as (evs2 & Hsnd & _).
      split.
      + rewrite loop_body_unfold. cbn [fst].
        by apply next_summary_counts.
      + eexists. split; [rewrite Hsnd, <- app_assoc; reflexivity |].
        apply Hstep; assumption. }
  destruct HQ as (_ & evs' & Hevs & HP). cbn [fst snd] in *.
  rewrite <- app_assoc in Hevs. cbn [app] in Hevs.
  apply app_inv_head in Hevs. injection Hevs as <-. exact HP.
Qed.

End RunInvariants.

Section RunProperties.

Variable net : Trace -> NetCall -> Response + NetError.
Variable url_Parse : string -> option URL.

Implicit Types (cfg : CheckConfig) (u : URL) (ticker : option time.Ticker)
  (s : checkSummary) (tr : Trace).

Lemma next_summary_values cfg r s :
  GoInt.in_int (Count cfg) ->
  summary_inv cfg s -> ChecksRan s < Count cfg ->
  ChecksRan (next_summary cfg r s) = ChecksRan s + 1 /\
  ChecksPassed (next_summary cfg r s)
  = ChecksPassed s + (if passes cfg r then 1 else 0) /\
  ChecksFailed (next_summary cfg r s)
  = ChecksFailed s + (if passes cfg r then 0 else 1).
Proof.
  intros Hc (Hsum & Hp & Hf & Hle) Hlt.
  assert (Hmax : Count cfg <= GoInt.int_max) by apply Hc.
  rewrite next_summary_passes.
  destruct (passes cfg r);
    cbn [incr_ChecksRan incr_ChecksPassed incr_ChecksFailed
         ChecksRan ChecksPassed ChecksFailed];
    rewrite !incr_no_wrap by lia; lia.
Qed.

(** The events an iteration appends are those of its call to [callAPI],
    one log line and the wait. *)
Lemma iteration_suffix cfg u ticker s tr evs1 :
  snd (loop_body net url_Parse cfg u ticker s tr) = tr ++ evs1 ->
  let call := callAPI net url_Parse
                (mkAPIRequest u (RequestType cfg) (RequestBody cfg)) tr in
  exists cevs,
    snd call = tr ++ cevs /\
    evs1 = cevs ++ iteration_log cfg u (fst call)
             :: (if armed ticker then [EvTick] else []).
Proof.
  cbn zeta. rewrite loop_body_unfold. cbn [snd].
  destruct (callAPI_trace net url_Parse
              (mkAPIRequest u (RequestType cfg) (RequestBody cfg)) tr)
    as (cevs & Hsnd & _).
  rewrite Hsnd, <- app_assoc. intros H%app_inv_head. eauto.
Qed.

Lemma count_net_iteration cfg u ticker r (cevs : list Event) :
  count_net (cevs ++ iteration_log cfg u r
               :: (if armed ticker then [EvTick] else []))
  = count_net cevs.
Proof.
  rewrite count_net_app. unfold count_net at 2.
  rewrite filter_cons_False by (by destruct r).
  destruct (armed ticker);
    [rewrite filter_cons_False by discriminate |];
    rewrite filter_nil; cbn [length]; lia.
Qed.

Lemma dispatched_call cfg u tr :
  dispatched url_Parse cfg u ->
  exists call,
    callAPI net url_Parse (mkAPIRequest u (RequestType cfg) (RequestBody cfg)) tr
    = (wrap_reply (ErrCalling (url_Redacted u)) (net tr call),
       tr ++ [EvNet call]).
Proof.
  intros [Hget | [Hbody Hparse]].
  - rewrite Hget, callAPI_get. eauto.
  - rewrite callAPI_body_method by assumption.
    destruct (url_Parse (url_String u)); [eauto | congruence].
Qed.

Lemma undispatched_call cfg u tr :
  RequestType cfg <> http.MethodGet -> ~ In (RequestType cfg) body_methods ->
  callAPI net url_Parse (mkAPIRequest u (RequestType cfg) (RequestBody cfg)) tr
  = (inr (ErrWrongRequestType (url_Redacted u)), tr).
Proof. apply callAPI_other_method. Qed.

End RunProperties.

(** X6. The summary [runChecks] returns agrees with what the loop logged:
    [ChecksPassed] is the number of [Got a] lines at the info level,
    [ChecksFailed] the number of error lines, and there are no more HTTP
    calls than checks. *)
Theorem runChecks_summary_matches_log
    (net : Trace -> NetCall -> Response + NetError)
    (url_Parse : string -> option URL)
    (cfg : CheckConfig) (u : URL) (tr : Trace) (ticker : option time.Ticker) :
  GoInt.in_int (Count cfg) -> 0 <= Count cfg ->
  start_ticker cfg = Returned ticker ->
  exists s evs,
    runChecks net url_Parse cfg u tr
    = (Returned (s, None), tr ++ begin_event :: evs) /\
    Z.of_nat (count_lines LevelInfo evs) = ChecksPassed s /\
    Z.of_nat (count_lines LevelError evs) = ChecksFailed s /\
    Z.of_nat (count_net evs) <= ChecksRan s /\
    ChecksRan s = Count cfg.
Proof.
  intros Hc H0 Ht.
  destruct (runChecks_invariant net url_Parse cfg u tr ticker
              (fun s evs =>
                 Z.of_nat (count_lines LevelInfo evs) = ChecksPassed s /\
                 Z.of_nat (count_lines LevelError evs) = ChecksFailed s /\
                 Z.of_nat (count_net evs) <= ChecksRan s) Hc H0 Ht)
    as (s & evs & Hrun & _ & Hcount & HP).
  - cbn. repeat split; lia.
  - intros s evs Hinv Hlt (Hi & He & Hn) evs1 Hsnd.
    rewrite loop_body_unfold. cbn [fst].
    set (r := fst (callAPI _ _ _ _)).
    destruct (next_summary_values cfg r s Hc Hinv Hlt) as (Hran & Hpass & Hfail).
    destruct (iteration_counts net url_Parse cfg u ticker s
                ((tr ++ [begin_event]) ++ evs))
      as (evs1' & Hsnd' & Hinfo & Herr & Hnet & _).
    rewrite Hsnd in Hsnd'. apply app_inv_head in Hsnd'. subst evs1'.
    fold r in Hinfo, Herr.
    rewrite !count_lines_app, count_net_app, Hran, Hpass, Hfail, Hinfo, Herr.
    destruct (passes cfg r); lia.
  - exists s, evs. tauto.
Qed.

Lemma runChecks_summary_matches_log_witness :
  exists s evs,
    runChecks (always 200) parse_any three_checks url_x []
    = (Returned (s, None), [] ++ begin_event :: evs) /\
    Z.of_nat (count_lines LevelInfo evs) = ChecksPassed s /\
    Z.of_nat (count_lines LevelError evs) = ChecksFailed s /\
    Z.of_nat (count_net evs) <= ChecksRan s /\
    ChecksRan s = Count three_checks.
Proof.
  apply (runChecks_summary_matches_log (always 200) parse_any three_checks
           url_x [] None).
  - vm_compute. split; discriminate.
  - vm_compute. discriminate.
  - reflexivity.
Defined.

(** X7. For a count that is not negative and a ticker whose creation does
    not panic: when the network answers every call with the expected status
    code and the request is one [callAPI] hands to the HTTP client, every
    check passes: [runChecks] returns [Count] checks ran, [Count] passed,
    none failed. *)
Theorem runChecks_all_pass
    (net : Trace -> NetCall -> Response + NetError)
    (url_Parse : string -> option URL)
    (cfg : CheckConfig) (u : URL) (tr : Trace) (ticker : option time.Ticker) :
  GoInt.in_int (Count cfg) -> 0 <= Count cfg ->
  start_ticker cfg = Returned ticker ->
  dispatched url_Parse cfg u ->
  (forall tr' call, exists response,
     net tr' call = inl response /\
     StatusCode response = ExpectedStatusCode cfg) ->
  exists tr',
    runChecks net url_Parse cfg u tr
    = (Returned (mkCheckSummary (Count cfg) (Count cfg) 0, None), tr').
Proof.
  intros Hc H0 Ht Hd Hnet.
  destruct (runChecks_invariant net url_Parse cfg u tr ticker
              (fun s evs => ChecksFailed s = 0) Hc H0 Ht)
    as (s & evs & Hrun & Hinv & Hcount & HP).
  - reflexivity.
  - intros s evs Hinv Hlt Hf evs1 _.
    rewrite loop_body_unfold. cbn [fst].
    destruct (dispatched_call net url_Parse cfg u
                ((tr ++ [begin_event]) ++ evs) Hd) as [call ->].
    destruct (Hnet ((tr ++ [begin_event]) ++ evs) call)
      as (response & -> & Hcode).
    cbn [fst wrap_reply].
    destruct (next_summary_values cfg (inl response) s Hc Hinv Hlt)
      as (_ & _ & Hfail).
    rewrite Hfail. cbn [passes]. rewrite Hcode, Z.eqb_refl. lia.
  - exists (tr ++ begin_event :: evs). rewrite Hrun.
    destruct s as [ran passed failed]. destruct Hinv as (Hsum & _).
    cbn in *. subst. repeat f_equal; lia.
Qed.

Lemma runChecks_all_pass_witness :
  exists tr',
    runChecks (always 200) parse_any three_checks url_x []
    = (Returned (mkCheckSummary 3 3 0, None), tr').
Proof.
  apply (runChecks_all_pass (always 200) parse_any three_checks url_x [] None).
  - vm_compute. split; discriminate.
  - vm_compute. discriminate.
  - reflexivity.
  - by left.
  - intros tr' call. by exists (mkResponse 200).
Defined.

(** X8. For a count that is not negative and a ticker whose creation does
    not panic: when no reply of the network has the expected status code
    (the call fails, or the status differs), every check fails:
    [runChecks] returns [Count] checks ran, none passed, [Count] failed,
    with a nil error. *)
Theorem runChecks_all_fail_summary
    (net : Trace -> NetCall -> Response + NetError)
    (url_Parse : string -> option URL)
    (cfg : CheckConfig) (u : URL) (tr : Trace) (ticker : option time.Ticker) :
  GoInt.in_int (Count cfg) -> 0 <= Count cfg ->
  start_ticker cfg = Returned ticker ->
  (forall tr' call response,
     net tr' call = inl response ->
     StatusCode response <> ExpectedStatusCode cfg) ->
  exists tr',
    runChecks net url_Parse cfg u tr
    = (Returned (mkCheckSummary (Count cfg) 0 (Count cfg), None), tr').
Proof.
  intros Hc H0 Ht Hnet.
  destruct (runChecks_invariant net url_Parse cfg u tr ticker
              (fun s evs => ChecksPassed s = 0) Hc H0 Ht)
    as (s & evs & Hrun & Hinv & Hcount & HP).
  - reflexivity.
  - intros s evs Hinv Hlt Hp evs1 _.
    rewrite loop_body_unfold. cbn [fst].
    destruct (fst (callAPI _ _ _ _)) as [response | err] eqn:Hreply.
    2: { destruct (next_summary_values cfg (inr err) s Hc Hinv Hlt)
           as (_ & -> & _). cbn [passes]. lia. }
    destruct (next_summary_values cfg (inl response) s Hc Hinv Hlt)
      as (_ & -> & _). cbn [passes].
    apply callAPI_response_origin in Hreply as [call Hcall].
    apply Hnet in Hcall.
    destruct (Z.eqb_spec (StatusCode response) (ExpectedStatusCode cfg)); lia.
  - exists (tr ++ begin_event :: evs). rewrite Hrun.
    destruct s as [ran passed failed]. destruct Hinv as (Hsum & _).
    cbn in *. subst. repeat f_equal; lia.
Qed.

Lemma runChecks_all_fail_summary_witness :
  exists tr',
    runChecks (always 500) parse_any three_checks url_x []
    = (Returned (mkCheckSummary 3 0 3, None), tr').
Proof.
  apply (runChecks_all_fail_summary (always 500) parse_any three_checks
           url_x [] None).
  - vm_compute. split; discriminate.
  - vm_compute. discriminate.
  - reflexivity.
  - intros tr' call response [= <-]. discriminate.
Defined.

(** X9. For a count that is not negative and a ticker whose creation does
    not panic, [runChecks] makes one HTTP call per check when the request
    is one [callAPI] hands to the HTTP client, whatever the replies are (it
    never retries and never stops early), and none at all when the method
    is not GET, POST, PUT, DELETE or PATCH, in which case every check is
    counted as failed. *)
Theorem runChecks_http_calls
    (net : Trace -> NetCall -> Response + NetError)
    (url_Parse : string -> option URL)
    (cfg : CheckConfig) (u : URL) (tr : Trace) (ticker : option time.Ticker) :
  GoInt.in_int (Count cfg) -> 0 <= Count cfg ->
  start_ticker cfg = Returned ticker ->
  exists s evs,
    runChecks net url_Parse cfg u tr
    = (Returned (s, None), tr ++ begin_event :: evs) /\
    (dispatched url_Parse cfg u -> Z.of_nat (count_net evs) = Count cfg) /\
    (RequestType cfg <> http.MethodGet ->
     ~ In (RequestType cfg) body_methods ->
     count_net evs = 0%nat /\
     s = mkCheckSummary (Count cfg) 0 (Count cfg)).
Proof.
  intros Hc H0 Ht.
  destruct (runChecks_invariant net url_Parse cfg u tr ticker
              (fun s evs =>
                 (dispatched url_Parse cfg u ->
                  Z.of_nat (count_net evs) = ChecksRan s) /\
                 (RequestType cfg <> http.MethodGet ->
                  ~ In (RequestType cfg) body_methods ->
                  count_net evs = 0%nat /\ ChecksPassed s = 0))
              Hc H0 Ht)
    as (s & evs & Hrun & Hinv & Hcount & Hd & Hu).
  - split; [reflexivity | by split].
  - intros s evs Hinv Hlt [Hd Hu] evs1 Hsnd.
    destruct (iteration_suffix net url_Parse cfg u ticker s _ evs1 Hsnd)
      as (cevs & Hcall & ->).
    rewrite loop_body_unfold. cbn [fst].
    set (r := fst (callAPI _ _ _ _)) in *.
    destruct (next_summary_values cfg r s Hc Hinv Hlt) as (Hran & Hpass & _).
    rewrite count_net_app, count_net_iteration. split.
    + intros Hdis. specialize (Hd Hdis).
      destruct (dispatched_call net url_Parse cfg u
                  ((tr ++ [begin_event]) ++ evs) Hdis) as [call Hc1].
      rewrite Hc1 in Hcall. cbn [snd] in Hcall.
      apply app_inv_head in Hcall. subst cevs.
      rewrite Hran. change (count_net [EvNet call]) with 1%nat. lia.
    + intros Hget Hbody. destruct (Hu Hget Hbody) as [Hn Hp].
      pose proof (undispatched_call net url_Parse cfg u
                    ((tr ++ [begin_event]) ++ evs) Hget Hbody) as Hc1.
      subst r. rewrite Hc1 in *. cbn [fst snd passes] in *.
      rewrite <- (app_nil_r ((tr ++ [begin_event]) ++ evs)) in Hcall at 1.
      apply app_inv_head in Hcall. subst cevs.
      change (count_net []) with 0%nat. split; lia.
  - exists s, evs. split; [exact Hrun |]. split.
    + intros Hdis. rewrite (Hd Hdis). exact Hcount.
    + intros Hget Hbody. destruct (Hu Hget Hbody) as [Hn Hp].
      split; [exact Hn |].
      destruct s as [ran passed failed]. destruct Hinv as (Hsum & _).
      cbn in *. subst. f_equal; lia.
Qed.

Lemma runChecks_http_calls_witness :
  exists s evs,
    runChecks refusing parse_any three_checks url_x []
    = (Returned (s, None), [] ++ begin_event :: evs) /\
    Z.of_nat (count_net evs) = 3.
Proof.
  destruct (runChecks_http_calls refusing parse_any three_checks url_x [] None)
    as (s & evs & Hrun & Hd & _).
  - vm_compute. split; discriminate.
  - vm_compute. discriminate.
  - reflexivity.
  - exists s, evs. split; [exact Hrun |]. apply Hd. by left.
Defined.

(** X10. The ticker of [runChecks]: none for a delay of zero or less; for a
    delay of 1 to 9223372036 seconds a ticker of exactly that many seconds;
    so [time.NewTicker] can panic only for a longer delay. A longer delay
    that does not panic ticks with a wrapped period: 18446744074 seconds
    give a period of 290448384 nanoseconds. *)
Theorem ticker_period_bounds (cfg : CheckConfig) :
  (Seconds cfg <= 0 -> start_ticker cfg = Returned None) /\
  (0 < Seconds cfg <= 9223372036 ->
   start_ticker cfg
   = Returned (Some (time.mkTicker (Seconds cfg * 1000000000) true))) /\
  (forall reason, start_ticker cfg = Panicked reason ->
                  9223372036 < Seconds cfg) /\
  (Seconds cfg = 18446744074 ->
   start_ticker cfg = Returned (Some (time.mkTicker 290448384 true))).
Proof.
  split; [| split; [| split]].
  - intros H. unfold start_ticker.
    destruct (Z.ltb_spec 0 (Seconds cfg)); [lia | reflexivity].
  - apply start_ticker_no_overflow.
  - intros reason Hp.
    destruct (Z.le_gt_cases (Seconds cfg) 9223372036) as [Hle | Hgt]; [| lia].
    destruct (Z.le_gt_cases (Seconds cfg) 0) as [H0 | H0].
    + unfold start_ticker in Hp.
      destruct (Z.ltb_spec 0 (Seconds cfg)); [lia | discriminate Hp].
    + rewrite start_ticker_no_overflow in Hp by lia. discriminate Hp.
  - intros H. unfold start_ticker. rewrite H. reflexivity.
Qed.

Lemma ticker_period_bounds_witness :
  start_ticker two_paced_checks
  = Returned (Some (time.mkTicker 1000000000 true)) /\
  start_ticker three_checks = Returned None.
Proof.
  destruct (ticker_period_bounds two_paced_checks) as (_ & H1 & _).
  destruct (ticker_period_bounds three_checks) as (H0 & _).
  split; [apply H1; cbn; lia | apply H0; cbn; lia].
Defined.

(* ===================================================================== *)
(** * More on the passing threshold *)
(* ===================================================================== *)

Lemma digits2_size (p : positive) : digits2_pos p = Pos.size p.
Proof. induction p; cbn; congruence. Qed.

Lemma digits2_iter_xO (p k : positive) :
  Z.pos (digits2_pos (Pos.iter xO p k)) = Z.pos (digits2_pos p) + Z.pos k.
Proof.
  induction k as [| k IH] using Pos.peano_ind.
  - cbn. lia.
  - rewrite Pos.iter_succ. cbn [digits2_pos]. lia.
Qed.

Lemma Zpos_iter_xO (p k : positive) :
  Z.pos (Pos.iter xO p k) = Z.pos p * 2 ^ Z.pos k.
Proof.
  induction k as [| k IH] using Pos.peano_ind.
  - cbn. lia.
  - rewrite Pos.iter_succ, Pos2Z.inj_succ, Z.pow_succ_r by lia.
    rewrite Pos2Z.inj_xO, IH. lia.
Qed.

(** A mantissa of 24 bits with an exponent in range is not rounded. *)
Lemma round_aux_exact (m : positive) (e : Z) :
  Z.pos (digits2_pos m) = 24 -> -149 <= e <= 104 ->
  binary_round_aux float32.prec float32.emax false (Z.pos m) e loc_Exact
  = S754_finite false m e.
Proof.
  intros Hd He.
  unfold binary_round_aux, shr_fexp, shr_record_of_loc.
  cbn [Zdigits2]. rewrite Hd.
  unfold fexp, emin, float32.prec, float32.emax.
  replace (Z.max (24 + e - 24) (3 - 128 - 24) - e) with 0 by lia.
  cbn [shr shr_m loc_of_shr_record round_nearest_even Zdigits2].
  rewrite Hd.
  replace (Z.max (24 + e - 24) (3 - 128 - 24) - e) with 0 by lia.
  cbn [shr shr_m].
  destruct (Z.leb_spec e (128 - 24)); [reflexivity | lia].
Qed.

Lemma digits2_bound (p : positive) :
  Z.pos p < 2 ^ 24 -> 1 <= Z.pos (digits2_pos p) <= 24.
Proof.
  intros H. split; [lia |].
  rewrite digits2_size.
  pose proof (Pos.size_le p) as Hle.
  apply Pos2Z.pos_le_pos in Hle. rewrite Pos2Z.inj_pow, (Pos2Z.inj_xO p) in Hle.
  assert (Hlt : 2 ^ Z.pos (Pos.size p) < 2 ^ 25) by lia.
  apply Z.pow_lt_mono_r_iff in Hlt; lia.
Qed.

(** [float32(n)] is exact for [0 < n < 2^24]: a 24-bit mantissa [m] and
    an exponent [e] with [n = m * 2^e]. *)
Lemma of_int_small (p : positive) :
  Z.pos p < 2 ^ 24 ->
  exists m e,
    float32.of_int (Z.pos p) = S754_finite false m e /\
    Z.pos (digits2_pos m) = 24 /\ -23 <= e <= 0 /\
    Z.pos m = Z.pos p * 2 ^ (- e).
Proof.
  intros Hp. pose proof (digits2_bound p Hp) as Hd.
  unfold float32.of_int, binary_normalize, binary_round, shl_align.
  unfold fexp, emin, float32.prec, float32.emax.
  replace (Z.max (Z.pos (digits2_pos p) + 0 - 24) (3 - 128 - 24) - 0)
    with (Z.pos (digits2_pos p) - 24) by lia.
  replace (Z.max (Z.pos (digits2_pos p) + 0 - 24) (3 - 128 - 24))
    with (Z.pos (digits2_pos p) - 24) by lia.
  destruct (Z.pos (digits2_pos p) - 24) as [| k | k] eqn:Ek; [| lia |].
  - exists p, 0. split; [apply round_aux_exact; lia |].
    repeat split; try lia.
  - exists (Pos.iter xO p k), (Z.neg k).
    assert (Hdk : Z.pos (digits2_pos (Pos.iter xO p k)) = 24)
      by (rewrite digits2_iter_xO; lia).
    split; [apply round_aux_exact; [exact Hdk | lia] |].
    split; [exact Hdk |]. split; [lia |].
    rewrite Zpos_iter_xO. reflexivity.
Qed.

Lemma one_is_one :
  float32.div (float32.of_int 100) (float32.of_int 100)
  = S754_finite false 8388608 (-23).
Proof. vm_compute. reflexivity. Qed.

Lemma shr_23 (m : positive) :
  SpecFloat.iter_pos shr_1 23
    {| shr_m := Z.pos (8388608 * m); shr_r := false; shr_s := false |}
  = {| shr_m := Z.pos m; shr_r := false; shr_s := false |}.
Proof. reflexivity. Qed.

Lemma digits2_mul_one (m : positive) :
  Z.pos (digits2_pos (8388608 * m)) = Z.pos (digits2_pos m) + 23.
Proof.
  change (8388608 * m)%positive with (Pos.iter xO m 23).
  apply digits2_iter_xO.
Qed.

Lemma mul_one (m : positive) (e : Z) :
  Z.pos (digits2_pos m) = 24 -> -23 <= e <= 0 ->
  float32.mul (S754_finite false 8388608 (-23)) (S754_finite false m e)
  = S754_finite false m e.
Proof.
  intros Hd He. unfold float32.mul, SFmul. cbn [xorb].
  unfold binary_round_aux, shr_fexp, shr_record_of_loc.
  cbn [Zdigits2]. rewrite digits2_mul_one, Hd.
  unfold fexp, emin, float32.prec, float32.emax.
  replace (Z.max (24 + 23 + (-23 + e) - 24) (3 - 128 - 24) - (-23 + e))
    with 23 by lia.
  unfold shr at 1. rewrite shr_23.
  cbn [shr_m loc_of_shr_record round_nearest_even Zdigits2]. rewrite Hd.
  replace (Z.max (24 + (-23 + e + 23) - 24) (3 - 128 - 24) - (-23 + e + 23))
    with 0 by lia.
  cbn [shr shr_m].
  destruct (Z.leb_spec (-23 + e + 23) (128 - 24)); [| lia].
  f_equal. lia.
Qed.

(** X12. At 100 percent, the default, every check must pass: for a count
    below [2^24] the threshold is the count itself, so the verdict is ok
    exactly when [ChecksPassed] is at least [Count]. The bound is the
    precision of [float32]: 16777217 checks require 16777216 passes. *)
Theorem all_checks_required_at_100_percent
    (cfg : CheckConfig) (u : URL) (summary : checkSummary) :
  PassingPercent cfg = 100 ->
  (0 <= Count cfg < 2 ^ 24 ->
   passInt cfg = Some (Count cfg) /\
   (verdict_ok cfg u (Count cfg) summary = true <->
    ChecksPassed summary >= Count cfg)) /\
  (Count cfg = 16777217 -> passInt cfg = Some 16777216).
Proof.
  intros Hpp. split.
  - intros Hc. split; [| apply verdict_ok_iff].
    unfold passInt, passingScore. rewrite Hpp, one_is_one.
    destruct (Count cfg) as [| p | p] eqn:Ec; [reflexivity | | lia].
    destruct (of_int_small p ltac:(lia)) as (m & e & -> & Hd & He & Hm).
    rewrite mul_one by assumption.
    unfold float32.to_int, float32.truncate.
    assert (Ht : (match e with
                  | 0 => Z.pos m
                  | Z.pos p0 => Z.shiftl (Z.pos m) (Z.pos p0)
                  | Z.neg p0 => Z.shiftr (Z.pos m) (Z.pos p0)
                  end) = Z.pos p).
    { destruct e as [| k | k]; [| lia |].
      - rewrite Hm. cbn. lia.
      - rewrite Z.shiftr_div_pow2, Hm by lia. cbn [Z.opp].
        apply Z.div_mul. lia. }
    cbn [cond_Zopp]. rewrite Ht.
    unfold GoInt.in_intb, GoInt.int_min, GoInt.int_max.
    destruct (Z.leb_spec (- 2 ^ 63) (Z.pos p)); [| lia].
    destruct (Z.leb_spec (Z.pos p) (2 ^ 63 - 1)); [reflexivity | lia].
  - intros Hc. unfold passInt, passingScore. rewrite Hpp, Hc.
    vm_compute. reflexivity.
Qed.

Lemma all_checks_required_at_100_percent_witness :
  passInt (mkCheckConfig "http://x" 10 0 100 "GET" "{}" 200) = Some 10 /\
  verdict_ok (mkCheckConfig "http://x" 10 0 100 "GET" "{}" 200) url_x 10
    (mkCheckSummary 10 9 1) = false.
Proof.
  destruct (all_checks_required_at_100_percent
              (mkCheckConfig "http://x" 10 0 100 "GET" "{}" 200) url_x
              (mkCheckSummary 10 9 1) eq_refl) as [H _].
  destruct H as [Hp _]; [cbn; lia |].
  split; [exact Hp | reflexivity].
Defined.










(** X11. For a percent from 0 to 100 and up to 500 checks the threshold is
    defined, is [floor (percent * count / 100)] or one less, and is never
    more than the count: a run in which every check passed is accepted. *)
Theorem threshold_is_floor_or_one_less
    (cfg : CheckConfig) (u : URL) (summary : checkSummary) :
  0 <= PassingPercent cfg <= 100 -> 0 <= Count cfg <= 500 ->
  exists r,
    passInt cfg = Some r /\
    PassingPercent cfg * Count cfg / 100 - 1 <= r
      <= PassingPercent cfg * Count cfg / 100 /\
    r <= Count cfg /\
    (ChecksPassed summary = Count cfg -> verdict_ok cfg u r summary = true).
Proof.
  intros Hp Hc.
  destruct (passInt_close_to_exact cfg Hp Hc) as (r & Hr & Hlo & Hhi).
  assert (Hle : PassingPercent cfg * Count cfg / 100 <= Count cfg).
  { apply Z.div_le_upper_bound; nia. }
  exists r. repeat split; try assumption; try lia.
  intros Hpass. apply verdict_ok_iff. lia.
Qed.

Lemma threshold_is_floor_or_one_less_witness :
  exists r,
    passInt (mkCheckConfig "http://x" 100 0 53 "GET" "{}" 200) = Some r /\
    53 * 100 / 100 - 1 <= r <= 53 * 100 / 100.
Proof.
  destruct (threshold_is_floor_or_one_less
              (mkCheckConfig "http://x" 100 0 53 "GET" "{}" 200) url_x
              zero_summary) as (r & Hr & Hb & _).
  - cbn. lia.
  - cbn. lia.
  - exists r. split; [exact Hr | exact Hb].
Defined.

(* ===================================================================== *)
(** * main *)
(* ===================================================================== *)

Section MainFacts.

Variable net : Trace -> NetCall -> Response + NetError.
Variable url_Parse : string -> option URL.
Variable url_Parse_error : string -> string.
Variable WaitForKuberhealthy : option string.
Variable ReportSuccess : option string.
Variable ReportFailure : list string -> option string.
Variable Error_text : MainError -> string.
Variable platform_int : spec_float -> Z.

Implicit Types (env : Env) (cfg : CheckConfig) (u : URL) (tr : Trace).

Lemma reportFailureAndExit_unfold (err : MainError) tr :
  reportFailureAndExit ReportFailure Error_text err tr
  = (match ReportFailure [Error_text err] with
     | Some reportErr => Fatal (SentFailure [Error_text err]) reportErr
     | None => ExitZero (SentFailure [Error_text err])
     end, tr ++ [EvLog LevelError [LStr (Error_text err)]]).
Proof.
  unfold reportFailureAndExit, bind, log_Errorln, emit, ret.
  by destruct (ReportFailure _).
Qed.

(** [main] once the configuration is accepted and its URL parsed. *)
Lemma main_unfold env tr cfg u :
  parseConfig env = inl cfg -> url_Parse (CheckURL cfg) = Some u ->
  main net url_Parse url_Parse_error WaitForKuberhealthy ReportSuccess
    ReportFailure Error_text platform_int env tr
  = match runChecks net url_Parse cfg u
            (tr ++ prelude WaitForKuberhealthy cfg) with
    | (Panicked reason, tr2) => (Crash reason, tr2)
    | (OutOfFuel, tr2) => (Unfinished, tr2)
    | (Returned (s, Some err), tr2) =>
        reportFailureAndExit ReportFailure Error_text (FromRunChecks err) tr2
    | (Returned (s, None), tr2) =>
        match verdict cfg u (passInt_here platform_int cfg) s with
        | Some reportErr =>
            reportFailureAndExit ReportFailure Error_text
              (FromVerdict reportErr) (tr2 ++ summary_lines s)
        | None =>
            match ReportSuccess with
            | Some err => (Fatal SentSuccess err, tr2 ++ summary_lines s)
            | None =>
                (ExitZero SentSuccess,
                 (tr2 ++ summary_lines s)
                 ++ [EvLog LevelInfo
                       [LStr "Successfully reported to Kuberhealthy"]])
            end
        end
    end.
Proof.
  intros Hcfg Hu. unfold main. rewrite Hcfg, Hu.
  unfold bind, log_Errorln, log_Infoln, emit, ret, prelude, summary_lines.
  destruct WaitForKuberhealthy as [werr |]; rewrite <- ?app_assoc; cbn [app];
    destruct (runChecks _ _ _ _ _) as [[[s [err |]] | reason |] tr2];
    try reflexivity;
    rewrite <- ?app_assoc; cbn [app];
    destruct (verdict cfg u _ s); try reflexivity;
    destruct ReportSuccess; rewrite <- ?app_assoc; reflexivity.
Qed.

(** What [main] does with the summary of a run that returned. *)
Lemma main_after_run env tr cfg u s tr2 :
  parseConfig env = inl cfg -> url_Parse (CheckURL cfg) = Some u ->
  runChecks net url_Parse cfg u (tr ++ prelude WaitForKuberhealthy cfg)
  = (Returned (s, None), tr2) ->
  exists evs,
    snd (main net url_Parse url_Parse_error WaitForKuberhealthy
             ReportSuccess ReportFailure Error_text platform_int env tr)
    = tr2 ++ evs /\
    count_net evs = 0%nat /\
    count_ticks evs = 0%nat /\
    (ChecksPassed s >= passInt_here platform_int cfg ->
     report_of (fst (main net url_Parse url_Parse_error WaitForKuberhealthy
             ReportSuccess ReportFailure Error_text platform_int env tr))
    = Some SentSuccess /\
     exit_status (fst (main net url_Parse url_Parse_error WaitForKuberhealthy
             ReportSuccess ReportFailure Error_text platform_int env tr))
     = Some (match ReportSuccess with None => 0 | Some _ => 1 end)) /\
    (ChecksPassed s < passInt_here platform_int cfg ->
     let text :=
       Error_text
         (FromVerdict
            (mkVerdictError (ExpectedStatusCode cfg) (RequestType cfg)
               (url_Redacted u) (ChecksFailed s) (ChecksRan s))) in
     report_of (fst (main net url_Parse url_Parse_error WaitForKuberhealthy
             ReportSuccess ReportFailure Error_text platform_int env tr))
    = Some (SentFailure [text]) /\
     exit_status (fst (main net url_Parse url_Parse_error WaitForKuberhealthy
             ReportSuccess ReportFailure Error_text platform_int env tr))
     = Some (match ReportFailure [text] with None => 0 | Some _ => 1 end)).
Proof.
  intros Hcfg Hu Hrun. rewrite (main_unfold env tr cfg u Hcfg Hu), Hrun.
  unfold verdict.
  destruct (Z.ltb_spec (ChecksPassed s) (passInt_here platform_int cfg)).
  - rewrite reportFailureAndExit_unfold. cbn [fst snd].
    eexists. split; [rewrite <- app_assoc; reflexivity |].
    split; [reflexivity |]. split; [reflexivity |].
    split; [lia |]. intros _. cbn zeta.
    destruct (ReportFailure _); split; reflexivity.
  - destruct ReportSuccess as [err |]; cbn [fst snd].
    + eexists. split; [reflexivity |].
      split; [reflexivity |]. split; [reflexivity |].
      split; [| lia]. intros _. split; reflexivity.
    + eexists. split; [rewrite <- app_assoc; reflexivity |].
      split; [reflexivity |]. split; [reflexivity |].
      split; [| lia]. intros _. split; reflexivity.
Qed.

(** X14. With a configuration [parseConfig] rejects, or a URL [url.Parse]
    rejects, [main] makes no HTTP call and waits on no ticker: it logs,
    sends one failure report with one message, and ends with status 0,
    or with status 1 when the report is refused. *)
Theorem main_rejects_before_any_request env tr :
  (exists err, parseConfig env = inr err) \/
  (exists cfg, parseConfig env = inl cfg /\ url_Parse (CheckURL cfg) = None) ->
  exists e evs text,
    main net url_Parse url_Parse_error WaitForKuberhealthy ReportSuccess
      ReportFailure Error_text platform_int env tr = (e, tr ++ evs) /\
    count_net evs = 0%nat /\ count_ticks evs = 0%nat /\
    report_of e = Some (SentFailure [text]) /\
    exit_status e
    = Some (match ReportFailure [text] with None => 0 | Some _ => 1 end).
Proof.
  intros [[err Herr] | (cfg & Hcfg & Hu)]; unfold main.
  - rewrite Herr, reportFailureAndExit_unfold.
    destruct (ReportFailure [Error_text (FromParseConfig err)]) eqn:Hsent;
      eexists _, _, (Error_text (FromParseConfig err));
      rewrite Hsent; (split; [reflexivity |]); repeat split.
  - rewrite Hcfg, Hu. unfold bind, log_Errorln, emit.
    rewrite reportFailureAndExit_unfold, <- app_assoc.
    destruct (ReportFailure _) eqn:Hsent;
      eexists _, _, _; rewrite Hsent;
      (split; [reflexivity |]); repeat split.
Qed.

(** X15. With an accepted configuration, a parsed URL, a count that is not
    negative and a ticker that starts, [main] runs the checks once and
    decides on their summary: it reports success exactly when
    [ChecksPassed] reaches the threshold, and otherwise reports the
    failure with the expected status, the method, the redacted URL and the
    numbers of failed and ran checks; no HTTP call follows the loop. *)
Theorem main_decides_on_the_summary env tr cfg u ticker :
  parseConfig env = inl cfg -> url_Parse (CheckURL cfg) = Some u ->
  0 <= Count cfg -> start_ticker cfg = Returned ticker ->
  exists s tr2 evs,
    runChecks net url_Parse cfg u (tr ++ prelude WaitForKuberhealthy cfg)
    = (Returned (s, None), tr2) /\
    ChecksRan s = Count cfg /\
    snd (main net url_Parse url_Parse_error WaitForKuberhealthy
             ReportSuccess ReportFailure Error_text platform_int env tr)
    = tr2 ++ evs /\
    count_net evs = 0%nat /\
    (report_of (fst (main net url_Parse url_Parse_error WaitForKuberhealthy
             ReportSuccess ReportFailure Error_text platform_int env tr))
    = Some SentSuccess <->
     ChecksPassed s >= passInt_here platform_int cfg) /\
    (ChecksPassed s < passInt_here platform_int cfg ->
     report_of (fst (main net url_Parse url_Parse_error WaitForKuberhealthy
             ReportSuccess ReportFailure Error_text platform_int env tr))
     = Some (SentFailure
               [Error_text
                  (FromVerdict
                     (mkVerdictError (ExpectedStatusCode cfg) (RequestType cfg)
                        (url_Redacted u) (ChecksFailed s) (ChecksRan s)))])).
Proof.
  intros Hcfg Hu H0 Ht.
  assert (Hc : GoInt.in_int (Count cfg)) by apply (parseConfig_wf env cfg Hcfg).
  destruct (runChecks_returns net url_Parse cfg u
              (tr ++ prelude WaitForKuberhealthy cfg) ticker Hc H0 Ht)
    as (s & evs0 & Hrun & _ & Hcount & _).
  destruct (main_after_run env tr cfg u s _ Hcfg Hu Hrun)
    as (evs & Hsnd & Hnet & _ & Hok & Hko).
  eexists s, _, evs.
  split; [exact Hrun |]. split; [exact Hcount |].
  split; [exact Hsnd |]. split; [exact Hnet |]. split.
  - split.
    + intros Hrep.
      destruct (Z.lt_ge_cases (ChecksPassed s) (passInt_here platform_int cfg))
        as [Hlt | Hge]; [| lia].
      destruct (Hko Hlt) as [Hrep' _]. rewrite Hrep' in Hrep. discriminate Hrep.
    + intros Hge. by destruct (Hok Hge).
  - intros Hlt. by destruct (Hko Hlt).
Qed.

(** X16. When [time.NewTicker] panics, [main] ends by that panic after the
    first line of [runChecks]: no HTTP call is made and no report, success
    or failure, is sent. *)
Theorem main_sends_no_report_on_panic env tr cfg u reason :
  parseConfig env = inl cfg -> url_Parse (CheckURL cfg) = Some u ->
  start_ticker cfg = Panicked reason ->
  main net url_Parse url_Parse_error WaitForKuberhealthy ReportSuccess
      ReportFailure Error_text platform_int env tr
  = (Crash reason, tr ++ prelude WaitForKuberhealthy cfg ++ [begin_event]) /\
  report_of (fst (main net url_Parse url_Parse_error WaitForKuberhealthy
             ReportSuccess ReportFailure Error_text platform_int env tr))
    = None /\
  exit_status (fst (main net url_Parse url_Parse_error WaitForKuberhealthy
             ReportSuccess ReportFailure Error_text platform_int env tr))
    = Some 2 /\
  count_net (prelude WaitForKuberhealthy cfg ++ [begin_event]) = 0%nat.
Proof.
  intros Hcfg Hu Hp.
  rewrite (main_unfold env tr cfg u Hcfg Hu).
  rewrite (runChecks_panics net url_Parse cfg u _ reason Hp), <- app_assoc.
  repeat split. unfold prelude. by destruct WaitForKuberhealthy.
Qed.

(** X17. A count of zero, the default when COUNT is not set, makes the
    check succeed without a single request: with an accepted
    configuration, a parsed URL, a percent from 0 to 100 and a ticker whose
    creation does not panic, [main] makes no HTTP call and reports success,
    whatever the network would answer. *)
Theorem main_succeeds_without_checks env tr cfg u ticker :
  parseConfig env = inl cfg -> url_Parse (CheckURL cfg) = Some u ->
  Count cfg = 0 -> 0 <= PassingPercent cfg <= 100 ->
  start_ticker cfg = Returned ticker ->
  exists evs,
    snd (main net url_Parse url_Parse_error WaitForKuberhealthy
             ReportSuccess ReportFailure Error_text platform_int env tr)
    = tr ++ evs /\
    count_net evs = 0%nat /\
    report_of (fst (main net url_Parse url_Parse_error WaitForKuberhealthy
             ReportSuccess ReportFailure Error_text platform_int env tr))
    = Some SentSuccess.
Proof.
  intros Hcfg Hu Hcount Hpp Ht.
  assert (Hrun : runChecks net url_Parse cfg u
                   (tr ++ prelude WaitForKuberhealthy cfg)
                 = (Returned (zero_summary, None),
                    (tr ++ prelude WaitForKuberhealthy cfg) ++ [begin_event]))
    by (by rewrite runChecks_no_iterations, Ht by lia).
  destruct (main_after_run env tr cfg u _ _ Hcfg Hu Hrun)
    as (evs & Hsnd & Hnet & _ & Hok & _).
  destruct (passInt_close_to_exact cfg Hpp ltac:(lia)) as (r & Hr & Hlo & Hhi).
  assert (Hhere : passInt_here platform_int cfg = r)
    by (unfold passInt_here; by rewrite Hr).
  rewrite Hcount, Z.mul_0_r in Hhi. change (0 / 100) with 0 in Hhi.
  exists ((prelude WaitForKuberhealthy cfg ++ [begin_event]) ++ evs).
  split; [by rewrite Hsnd, <- !app_assoc |]. split.
  - rewrite !count_net_app, Hnet.
    unfold prelude. by destruct WaitForKuberhealthy.
  - apply Hok. rewrite Hhere. change (ChecksPassed zero_summary) with 0. lia.
Qed.

(** X18. With an accepted configuration, a parsed URL and a ticker whose
    creation does not panic: when every reply has the expected status
    code, for a request [callAPI] hands to the HTTP client, a percent from
    0 to 100 and a count from 0 to 500, [main] reports success; it ends
    with status 0, or with status 1 when the report is refused. *)
Theorem main_reports_success_when_all_pass env tr cfg u ticker :
  parseConfig env = inl cfg -> url_Parse (CheckURL cfg) = Some u ->
  0 <= Count cfg <= 500 -> 0 <= PassingPercent cfg <= 100 ->
  start_ticker cfg = Returned ticker ->
  dispatched url_Parse cfg u ->
  (forall tr' call, exists response,
     net tr' call = inl response /\
     StatusCode response = ExpectedStatusCode cfg) ->
  report_of (fst (main net url_Parse url_Parse_error WaitForKuberhealthy
             ReportSuccess ReportFailure Error_text platform_int env tr))
    = Some SentSuccess /\
  exit_status (fst (main net url_Parse url_Parse_error WaitForKuberhealthy
             ReportSuccess ReportFailure Error_text platform_int env tr))
  = Some (match ReportSuccess with None => 0 | Some _ => 1 end).
Proof.
  intros Hcfg Hu Hcount Hpp Ht Hd Hnet.
  assert (Hc : GoInt.in_int (Count cfg)) by apply (parseConfig_wf env cfg Hcfg).
  set (tr0 := tr ++ prelude WaitForKuberhealthy cfg).
  destruct (runChecks_invariant net url_Parse cfg u tr0 ticker
              (fun s evs => ChecksFailed s = 0) Hc ltac:(lia) Ht)
    as (s & evs & Hrun & Hinv & Hran & HP).
  - reflexivity.
  - intros s evs Hinv Hlt Hf evs1 _.
    rewrite loop_body_unfold. cbn [fst].
    destruct (dispatched_call net url_Parse cfg u
                ((tr0 ++ [begin_event]) ++ evs) Hd) as [call ->].
    destruct (Hnet ((tr0 ++ [begin_event]) ++ evs) call)
      as (response & -> & Hcode).
    cbn [fst wrap_reply].
    destruct (next_summary_values cfg (inl response) s Hc Hinv Hlt)
      as (_ & _ & ->).
    cbn [passes]. rewrite Hcode, Z.eqb_refl. lia.
  - destruct (main_after_run env tr cfg u s _ Hcfg Hu Hrun)
      as (_ & _ & _ & _ & Hok & _).
    apply Hok.
    destruct (passInt_close_to_exact cfg Hpp Hcount) as (r & Hr & _ & Hhi).
    unfold passInt_here. rewrite Hr.
    destruct Hinv as (Hsum & _).
    assert (PassingPercent cfg * Count cfg / 100 <= Count cfg)
      by (apply Z.div_le_upper_bound; nia).
    lia.
Qed.

(** X19. With an accepted configuration, a parsed URL, a count that is
    not negative and a ticker whose creation does not panic: when no reply
    has the expected status code and at least one passed check is
    required, [main] reports a failure whose message is built from the
    expected status, the method, the redacted URL and [Count] failed
    checks out of [Count]. *)
Theorem main_reports_failure_when_none_pass env tr cfg u ticker :
  parseConfig env = inl cfg -> url_Parse (CheckURL cfg) = Some u ->
  0 <= Count cfg -> start_ticker cfg = Returned ticker ->
  1 <= passInt_here platform_int cfg ->
  (forall tr' call response,
     net tr' call = inl response ->
     StatusCode response <> ExpectedStatusCode cfg) ->
  report_of (fst (main net url_Parse url_Parse_error WaitForKuberhealthy
             ReportSuccess ReportFailure Error_text platform_int env tr))
  = Some (SentFailure
            [Error_text
               (FromVerdict
                  (mkVerdictError (ExpectedStatusCode cfg) (RequestType cfg)
                     (url_Redacted u) (Count cfg) (Count cfg)))]).
Proof.
  intros Hcfg Hu H0 Ht Hneed Hnet.
  assert (Hc : GoInt.in_int (Count cfg)) by apply (parseConfig_wf env cfg Hcfg).
  set (tr0 := tr ++ prelude WaitForKuberhealthy cfg).
  destruct (runChecks_invariant net url_Parse cfg u tr0 ticker
              (fun s evs => ChecksPassed s = 0) Hc H0 Ht)
    as (s & evs & Hrun & Hinv & Hran & HP).
  - reflexivity.
  - intros s evs Hinv Hlt Hp evs1 _.
    rewrite loop_body_unfold. cbn [fst].
    destruct (fst (callAPI _ _ _ _)) as [response | err] eqn:Hreply.
    2: { destruct (next_summary_values cfg (inr err) s Hc Hinv Hlt)
           as (_ & -> & _). cbn [passes]. lia. }
    destruct (next_summary_values cfg (inl response) s Hc Hinv Hlt)
      as (_ & -> & _). cbn [passes].
    apply callAPI_response_origin in Hreply as [call Hcall].
    apply Hnet in Hcall.
    destruct (Z.eqb_spec (StatusCode response) (ExpectedStatusCode cfg)); lia.
  - destruct (main_after_run env tr cfg u s _ Hcfg Hu Hrun)
      as (_ & _ & _ & _ & _ & Hko).
    destruct Hinv as (Hsum & _).
    assert (Hfailed : ChecksFailed s = Count cfg) by lia.
    rewrite <- Hfailed at 1. rewrite <- Hran.
    apply Hko. lia.
Qed.

End MainFacts.

Lemma main_rejects_before_any_request_witness :
  exists e evs text,
    sample_main (always 200) ∅ [] = (e, [] ++ evs) /\
    count_net evs = 0%nat /\ count_ticks evs = 0%nat /\
    report_of e = Some (SentFailure [text]) /\
    exit_status e
    = Some (match accepting [text] with None => 0 | Some _ => 1 end).
Proof.
  apply (main_rejects_before_any_request (always 200) parse_any
           no_parse_error None None accepting plain_text min_int_on_overflow
           ∅ []).
  left. eexists. reflexivity.
Defined.

Lemma main_decides_on_the_summary_witness :
  exists s tr2 evs,
    runChecks (always 200) parse_any three_checks url_x
      ([] ++ prelude None three_checks)
    = (Returned (s, None), tr2) /\
    ChecksRan s = 3 /\
    snd (sample_main (always 200) three_checks_env []) = tr2 ++ evs /\
    count_net evs = 0%nat /\
    (report_of (fst (sample_main (always 200) three_checks_env []))
     = Some SentSuccess <->
     ChecksPassed s >= passInt_here min_int_on_overflow three_checks) /\
    (ChecksPassed s < passInt_here min_int_on_overflow three_checks ->
     report_of (fst (sample_main (always 200) three_checks_env []))
     = Some (SentFailure
               [plain_text
                  (FromVerdict
                     (mkVerdictError 200 "GET" "http://x"
                        (ChecksFailed s) (ChecksRan s)))])).
Proof.
  apply (main_decides_on_the_summary (always 200) parse_any no_parse_error
           None None accepting plain_text min_int_on_overflow
           three_checks_env [] three_checks url_x None).
  - reflexivity.
  - reflexivity.
  - vm_compute. discriminate.
  - reflexivity.
Defined.

Lemma main_sends_no_report_on_panic_witness :
  sample_main (always 200) long_delay_main_env []
  = (Crash "non-positive interval for NewTicker",
     [] ++ prelude None (long_delay 10) ++ [begin_event]) /\
  report_of (fst (sample_main (always 200) long_delay_main_env [])) = None /\
  exit_status (fst (sample_main (always 200) long_delay_main_env []))
  = Some 2 /\
  count_net (prelude None (long_delay 10) ++ [begin_event]) = 0%nat.
Proof.
  apply (main_sends_no_report_on_panic (always 200) parse_any no_parse_error
           None None accepting plain_text min_int_on_overflow
           long_delay_main_env [] (long_delay 10) url_x
           "non-positive interval for NewTicker").
  - reflexivity.
  - reflexivity.
  - reflexivity.
Defined.

Lemma main_succeeds_without_checks_witness :
  exists evs,
    snd (sample_main refusing (<["CHECK_URL" := "http://x"]> ∅) [])
    = [] ++ evs /\
    count_net evs = 0%nat /\
    report_of (fst (sample_main refusing (<["CHECK_URL" := "http://x"]> ∅) []))
    = Some SentSuccess.
Proof.
  apply (main_succeeds_without_checks refusing parse_any no_parse_error
           None None accepting plain_text min_int_on_overflow
           (<["CHECK_URL" := "http://x"]> ∅) []
           (mkCheckConfig "http://x" 0 0 100 "GET" "{}" 200) url_x None).
  - reflexivity.
  - reflexivity.
  - reflexivity.
  - cbn. lia.
  - reflexivity.
Defined.

Lemma main_reports_success_when_all_pass_witness :
  report_of (fst (sample_main (always 200) three_checks_env []))
  = Some SentSuccess /\
  exit_status (fst (sample_main (always 200) three_checks_env [])) = Some 0.
Proof.
  apply (main_reports_success_when_all_pass (always 200) parse_any
           no_parse_error None None accepting plain_text min_int_on_overflow
           three_checks_env [] three_checks url_x None).
  - reflexivity.
  - reflexivity.
  - cbn. lia.
  - cbn. lia.
  - reflexivity.
  - by left.
  - intros tr' call. by exists (mkResponse 200).
Defined.

Lemma main_reports_failure_when_none_pass_witness :
  report_of (fst (sample_main (always 500) three_checks_env []))
  = Some (SentFailure
            [plain_text
               (FromVerdict (mkVerdictError 200 "GET" "http://x" 3 3))]).
Proof.
  apply (main_reports_failure_when_none_pass (always 500) parse_any
           no_parse_error None None accepting plain_text min_int_on_overflow
           three_checks_env [] three_checks url_x None).
  - reflexivity.
  - reflexivity.
  - cbn. lia.
  - reflexivity.
  - vm_compute. discriminate.
  - intros tr' call response [= <-]. discriminate.
Defined.

(* ===================================================================== *)
(** * What the loop logs *)
(* ===================================================================== *)

(** X20. Whatever the request type is, the lines [runChecks] logs about a
    reply name GET as the method, and they show the redacted URL only: with
    REQUEST_TYPE=POST the log still says GET, and the URL with its password
    is not logged. *)
Theorem runChecks_logs_get_and_redacted_url
    (net : Trace -> NetCall -> Response + NetError)
    (url_Parse : string -> option URL)
    (cfg : CheckConfig) (u : URL) (tr : Trace) (ticker : option time.Ticker) :
  GoInt.in_int (Count cfg) -> 0 <= Count cfg ->
  start_ticker cfg = Returned ticker ->
  exists s evs,
    runChecks net url_Parse cfg u tr
    = (Returned (s, None), tr ++ begin_event :: evs) /\
    Forall (loop_event u) evs.
Proof.
  intros Hc H0 Ht.
  destruct (runChecks_invariant net url_Parse cfg u tr ticker
              (fun s evs => Forall (loop_event u) evs) Hc H0 Ht)
    as (s & evs & Hrun & _ & _ & HP).
  - constructor.
  - intros s evs _ _ Hevs evs1 Hsnd.
    apply iteration_suffix in Hsnd as (cevs & Hcall & ->).
    destruct (callAPI_trace net url_Parse
                (mkAPIRequest u (RequestType cfg) (RequestBody cfg))
                ((tr ++ [begin_event]) ++ evs)) as (cevs' & Hcall' & Hshape).
    rewrite Hcall in Hcall'. apply app_inv_head in Hcall'. subst cevs'.
    apply Forall_app. split; [exact Hevs |].
    apply Forall_app. split.
    + destruct Hshape as [-> | [call ->]]; repeat constructor.
    + constructor.
      * destruct (fst (callAPI _ _ _ _)) as [response | err]; cbn;
          [right; eexists; reflexivity | by left].
      * destruct (armed ticker); repeat constructor.
  - exists s, evs. by split.
Qed.

Lemma runChecks_logs_get_and_redacted_url_witness :
  exists s evs,
    runChecks (always 200) parse_any two_posts url_with_password []
    = (Returned (s, None), [] ++ begin_event :: evs) /\
    Forall (loop_event url_with_password) evs.
Proof.
  apply (runChecks_logs_get_and_redacted_url (always 200) parse_any two_posts
           url_with_password [] None).
  - vm_compute. split; discriminate.
  - vm_compute. discriminate.
  - reflexivity.
Defined.
